(** * patodo: the task store (task.go) and the interaction controller (ui.go)

    A shallow embedding of the two Go files and the properties of the
    specification that are about them.

    Conventions of the embedding.
    - A Go [string] is a [string] of bytes; [TaskStatus] and [TaskCategory]
      are string types in the source and stay strings here.
    - A Go slice is a [list]; an index expression that would panic is
      modelled by [None] in the functions that contain one.
    - A nil-able pointer ([*TaskStatus], [*TaskCategory]) is an [option].
    - An [error] is an [option string]: [None] is [nil].
    - The [*TaskStore] held by the controller points to the one store of the
      process; the pointee is kept in the controller record, and the file
      system it writes to is threaded through every call.
    - What the environment decides during a call (the readings of
      [time.Now], the outcome of [os.WriteFile], the iteration order of a Go
      map) is passed in as an [Env].
    - Functions of libraries outside the repository whose results the
      properties do not depend on are section variables. *)

From Stdlib Require Import ZArith String Ascii List Lia.
From stdpp Require Import base option list strings pretty gmap.

Local Open Scope string_scope.
Local Open Scope list_scope.
Local Open Scope Z_scope.

(** ** task.go: data model *)

Definition TaskStatus := string.

Definition StatusPending : TaskStatus := "pending".
Definition StatusInProgress : TaskStatus := "in-progress".
Definition StatusDone : TaskStatus := "done".

Definition TaskCategory := string.

(** [time.Time], as the number of nanoseconds since the Unix epoch. *)
Definition Time := Z.

Record Task := mkTask {
  ID : string;
  Description : string;
  Status : TaskStatus;
  Category : TaskCategory;
  CreatedAt : Time;
  UpdatedAt : Time
}.

Record TaskStore := mkTaskStore {
  filepath : string;
  tasks : list Task
}.

Record FilterOptions := mkFilterOptions {
  opt_Status : option TaskStatus;
  opt_Category : option TaskCategory
}.

Definition error := option string.

(** The files of the machine: path to content. *)
Abbreviation FS := (gmap string string).

(** What [os.WriteFile] does when it is called: it succeeds, or it fails
    with a message and leaves the file as it was ([None]: the open failed)
    or with some other content ([Some r]: truncated or partly written). *)
Inductive WriteOutcome :=
  | WriteOk
  | WriteFail (msg : string) (residue : option string).

Record Env := mkEnv {
  clock : nat -> Time;        (* the k-th reading of time.Now() in the call *)
  write : WriteOutcome;       (* the outcome of os.WriteFile *)
  mapOrder : list nat         (* the order in which a map is ranged over *)
}.

Definition set_Status (status : TaskStatus) (t : Task) : Task :=
  mkTask (ID t) (Description t) status (Category t) (CreatedAt t) (UpdatedAt t).
Definition set_Description (description : string) (t : Task) : Task :=
  mkTask (ID t) description (Status t) (Category t) (CreatedAt t) (UpdatedAt t).
Definition set_Category (category : TaskCategory) (t : Task) : Task :=
  mkTask (ID t) (Description t) (Status t) category (CreatedAt t) (UpdatedAt t).
Definition set_UpdatedAt (now : Time) (t : Task) : Task :=
  mkTask (ID t) (Description t) (Status t) (Category t) (CreatedAt t) now.

Definition set_tasks (ts : list Task) (s : TaskStore) : TaskStore :=
  mkTaskStore (filepath s) ts.

(** [for k := range m] over the keys of a Go map visits them in an order the
    language leaves open.  [rangeOrder order keys] is the visit that picks,
    at each step, the key at position [k mod (number of keys left)] for the
    next [k] of [order]; when [order] runs out the rest follows as it is. *)
Fixpoint rangeOrder {A} (order : list nat) (keys : list A) : list A :=
  match order with
  | [] => keys
  | k :: order' =>
      match keys with
      | [] => []
      | _ :: _ =>
          let i := (k mod length keys)%nat in
          match keys !! i with
          | Some x => x :: rangeOrder order' (delete i keys)
          | None => keys
          end
      end
  end.

Section Store.

(** [json.MarshalIndent(tasks, "", "  ")] of encoding/json. *)
Variable marshalIndent : list Task -> string.

(** [t.Format("20060102150405.000000")] of package time: the layout has a
    fraction of six digits, so the text is a function of the whole
    microseconds of [t]. *)
Variable formatMicro : Z -> string.

Definition WriteFile (w : WriteOutcome) (path data : string) (fs : FS)
  : FS * error :=
  match w with
  | WriteOk => (<[path := data]> fs, None)
  | WriteFail msg None => (fs, Some msg)
  | WriteFail msg (Some r) => (<[path := r]> fs, Some msg)
  end.

(** Save writes tasks to disk.  (A failure of MarshalIndent returns before
    the file is opened: it is the outcome [WriteFail msg None].) *)
Definition Save (env : Env) (s : TaskStore) (fs : FS) : FS * error :=
  WriteFile (write env) (filepath s) (marshalIndent (tasks s)) fs.

Definition GetAll (s : TaskStore) : list Task := tasks s.

(** The key set of [categorySet] after the first loop of GetCategories. *)
Definition categorySet (ts : list Task) : gset string :=
  foldl (fun acc task =>
           if decide (Category task = "") then acc
           else acc ∪ {[ Category task ]}) ∅ ts.

Definition GetCategories (env : Env) (s : TaskStore) : list string :=
  foldl (fun categories category => categories ++ [category]) []
        (rangeOrder (mapOrder env) (elements (categorySet (tasks s)))).

Definition generateID (now : Time) : string := formatMicro (now `div` 1000).

Definition Add (env : Env) (description : string) (category : TaskCategory)
    (s : TaskStore) (fs : FS) : TaskStore * FS * error :=
  let task := mkTask (generateID (clock env 0%nat)) description StatusPending
                     category (clock env 1%nat) (clock env 2%nat) in
  let s' := set_tasks (tasks s ++ [task]) s in
  let '(fs', err) := Save env s' fs in
  (s', fs', err).

Fixpoint findTaskIndex_from (i : Z) (ts : list Task) (id : string) : Z :=
  match ts with
  | [] => -1
  | t :: ts' =>
      if decide (ID t = id) then i else findTaskIndex_from (i + 1) ts' id
  end.

(** findTaskIndex returns the index of a task by ID, or -1 if not found *)
Definition findTaskIndex (s : TaskStore) (id : string) : Z :=
  findTaskIndex_from 0 (tasks s) id.

(** The shape shared by the four update methods: when the task is found,
    [change] is applied to [s.tasks[idx]], UpdatedAt is set and the store
    is saved. *)
Definition updateAt (env : Env) (change : Task -> Task) (id : string)
    (s : TaskStore) (fs : FS) : TaskStore * FS * error :=
  let idx := findTaskIndex s id in
  if decide (idx ≠ -1) then
    let s' := set_tasks
                (alter (fun t => set_UpdatedAt (clock env 0%nat) (change t))
                       (Z.to_nat idx) (tasks s)) s in
    let '(fs', err) := Save env s' fs in
    (s', fs', err)
  else (s, fs, None).

Definition UpdateStatus (env : Env) (id : string) (status : TaskStatus) :=
  updateAt env (set_Status status) id.

Definition UpdateDescription (env : Env) (id : string) (description : string) :=
  updateAt env (set_Description description) id.

Definition UpdateCategory (env : Env) (id : string) (category : TaskCategory) :=
  updateAt env (set_Category category) id.

Definition Update (env : Env) (id : string) (description : string)
    (category : TaskCategory) :=
  updateAt env (fun t => set_Category category (set_Description description t)) id.

(** Delete removes a task: [append(s.tasks[:idx], s.tasks[idx+1:]...)]. *)
Definition Delete (env : Env) (id : string) (s : TaskStore) (fs : FS)
  : TaskStore * FS * error :=
  let idx := findTaskIndex s id in
  if decide (idx ≠ -1) then
    let s' := set_tasks (take (Z.to_nat idx) (tasks s)
                         ++ drop (Z.to_nat (idx + 1)) (tasks s)) s in
    let '(fs', err) := Save env s' fs in
    (s', fs', err)
  else (s, fs, None).

(** One turn of the loop of Filter on [task], with [filtered] so far. *)
Definition Filter_step (opts : FilterOptions) (filtered : list Task)
    (task : Task) : list Task :=
  (* Check status filter *)
  if match opt_Status opts with
     | Some status => bool_decide (Status task ≠ status)
     | None => false
     end
  then filtered (* continue *)
  else
    (* Check category filter *)
    if match opt_Category opts with
       | Some category => bool_decide (Category task ≠ category)
       | None => false
       end
    then filtered (* continue *)
    else filtered ++ [task].

(** Filter returns tasks matching the given criteria *)
Definition Filter (s : TaskStore) (opts : FilterOptions) : list Task :=
  foldl (Filter_step opts) [] (tasks s).

End Store.

(** ** Library functions used by ui.go *)

(** [strings.TrimSpace]: the white space of [unicode.IsSpace], each code
    point by its UTF-8 encoding (tab, LF, VT, FF, CR, space, U+0085, U+00A0,
    U+1680, U+2000..U+200A, U+2028, U+2029, U+202F, U+205F, U+3000). *)
Definition spaceEncodings : list (list nat) :=
  [ [9]; [10]; [11]; [12]; [13]; [32]; [194; 133]; [194; 160];
    [225; 154; 128];
    [226; 128; 128]; [226; 128; 129]; [226; 128; 130]; [226; 128; 131];
    [226; 128; 132]; [226; 128; 133]; [226; 128; 134]; [226; 128; 135];
    [226; 128; 136]; [226; 128; 137]; [226; 128; 138];
    [226; 128; 168]; [226; 128; 169]; [226; 128; 175];
    [226; 129; 159]; [227; 128; 128] ]%nat.

Fixpoint stripPrefix (p l : list nat) : option (list nat) :=
  match p, l with
  | [], _ => Some l
  | a :: p', b :: l' => if decide (a = b) then stripPrefix p' l' else None
  | _ :: _, [] => None
  end.

(** The rest of [l] after one leading white space of [encs], if it has one. *)
Fixpoint stripSpace (encs : list (list nat)) (l : list nat)
  : option (list nat) :=
  match encs with
  | [] => None
  | e :: encs' =>
      match stripPrefix e l with
      | Some r => Some r
      | None => stripSpace encs' l
      end
  end.

Fixpoint trimLeading (fuel : nat) (encs : list (list nat)) (l : list nat)
  : list nat :=
  match fuel with
  | O => l
  | S fuel' =>
      match stripSpace encs l with
      | Some r => trimLeading fuel' encs r
      | None => l
      end
  end.

Definition bytesOf (s : string) : list nat :=
  map nat_of_ascii (list_ascii_of_string s).
Definition stringOf (l : list nat) : string :=
  string_of_list_ascii (map ascii_of_nat l).

Definition TrimSpace (s : string) : string :=
  let l := trimLeading (String.length s) spaceEncodings (bytesOf s) in
  let r := trimLeading (length l) (map (@rev nat) spaceEncodings) (rev l) in
  stringOf (rev r).

(** [strings.Contains]. *)
Fixpoint Contains (s substr : string) : bool :=
  if String.prefix substr s then true
  else match s with
       | EmptyString => false
       | String _ s' => Contains s' substr
       end.

(** bubbletea: the keys the controller tells apart, and any other key by
    the name that [Key.String] gives it. *)
Inductive KeyType :=
  | KeyRunes | KeyEsc | KeyEnter | KeyTab | KeyCtrlC | KeyUp | KeyDown
  | KeyOther (name : string).

Record KeyMsg := mkKeyMsg {
  key_Type : KeyType;
  Runes : string;
  Alt : bool;
  Paste : bool
}.

(** [tea.KeyMsg.String]. *)
Definition KeyMsg_String (k : KeyMsg) : string :=
  ((if Alt k then "alt+" else "") +:+
   match key_Type k with
   | KeyRunes =>
       (if Paste k then "[" else "") +:+ Runes k +:+
       (if Paste k then "]" else "")
   | KeyEsc => "esc"
   | KeyEnter => "enter"
   | KeyTab => "tab"
   | KeyCtrlC => "ctrl+c"
   | KeyUp => "up"
   | KeyDown => "down"
   | KeyOther name => name
   end).

(** [tea.Msg]: a key press, or any other message of the event loop. *)
Inductive Msg :=
  | KeyPress (k : KeyMsg)
  | OtherMsg (tag : nat).

(** [tea.Cmd]: nil, [tea.Quit], [textinput.Blink], or a command that a text
    input returned. *)
Inductive Cmd := CmdNil | Quit | Blink | InputCmd (tag : nat).

(** bubbles/textinput: what the controller sets and reads of a
    [textinput.Model]. *)
Record TextInput := mkTextInput {
  Placeholder : string;
  CharLimit : Z;
  Width : Z;
  ti_value : string;
  ti_focus : bool
}.

Definition textinput_New : TextInput := mkTextInput "" 0 0 "" false.
Definition with_Placeholder (p : string) (ti : TextInput) : TextInput :=
  mkTextInput p (CharLimit ti) (Width ti) (ti_value ti) (ti_focus ti).
Definition with_CharLimit (n : Z) (ti : TextInput) : TextInput :=
  mkTextInput (Placeholder ti) n (Width ti) (ti_value ti) (ti_focus ti).
Definition with_Width (n : Z) (ti : TextInput) : TextInput :=
  mkTextInput (Placeholder ti) (CharLimit ti) n (ti_value ti) (ti_focus ti).
Definition Focus (ti : TextInput) : TextInput :=
  mkTextInput (Placeholder ti) (CharLimit ti) (Width ti) (ti_value ti) true.
Definition Blur (ti : TextInput) : TextInput :=
  mkTextInput (Placeholder ti) (CharLimit ti) (Width ti) (ti_value ti) false.
Definition Reset (ti : TextInput) : TextInput :=
  mkTextInput (Placeholder ti) (CharLimit ti) (Width ti) "" (ti_focus ti).
Definition Value (ti : TextInput) : string := ti_value ti.

(** ** ui.go: the controller state *)

Inductive ViewMode :=
  | ModeList | ModeCreate | ModeEdit | ModeFilter | ModeFilterCategory.

(** The struct [model].  Its fields [store] and [tasks] are [store] and
    [model_tasks] here ([tasks] is the field of the store). *)
Record model := mkModel {
  store : TaskStore;
  model_tasks : list Task;
  cursor : Z;
  viewMode : ViewMode;
  textInput : TextInput;
  categoryInput : TextInput;
  filterStatus : option TaskStatus;
  filterCategory : option TaskCategory;
  message : string;
  quitting : bool;
  activeInput : Z;
  editingTaskID : string;
  viewAsTable : bool
}.

(** Assignments to one field of [m]. *)
Definition with_store v m :=
  mkModel v (model_tasks m) (cursor m) (viewMode m) (textInput m)
    (categoryInput m) (filterStatus m) (filterCategory m) (message m)
    (quitting m) (activeInput m) (editingTaskID m) (viewAsTable m).
Definition with_tasks v m :=
  mkModel (store m) v (cursor m) (viewMode m) (textInput m)
    (categoryInput m) (filterStatus m) (filterCategory m) (message m)
    (quitting m) (activeInput m) (editingTaskID m) (viewAsTable m).
Definition with_cursor v m :=
  mkModel (store m) (model_tasks m) v (viewMode m) (textInput m)
    (categoryInput m) (filterStatus m) (filterCategory m) (message m)
    (quitting m) (activeInput m) (editingTaskID m) (viewAsTable m).
Definition with_viewMode v m :=
  mkModel (store m) (model_tasks m) (cursor m) v (textInput m)
    (categoryInput m) (filterStatus m) (filterCategory m) (message m)
    (quitting m) (activeInput m) (editingTaskID m) (viewAsTable m).
Definition with_textInput v m :=
  mkModel (store m) (model_tasks m) (cursor m) (viewMode m) v
    (categoryInput m) (filterStatus m) (filterCategory m) (message m)
    (quitting m) (activeInput m) (editingTaskID m) (viewAsTable m).
Definition with_categoryInput v m :=
  mkModel (store m) (model_tasks m) (cursor m) (viewMode m) (textInput m)
    v (filterStatus m) (filterCategory m) (message m)
    (quitting m) (activeInput m) (editingTaskID m) (viewAsTable m).
Definition with_filterStatus v m :=
  mkModel (store m) (model_tasks m) (cursor m) (viewMode m) (textInput m)
    (categoryInput m) v (filterCategory m) (message m)
    (quitting m) (activeInput m) (editingTaskID m) (viewAsTable m).
Definition with_filterCategory v m :=
  mkModel (store m) (model_tasks m) (cursor m) (viewMode m) (textInput m)
    (categoryInput m) (filterStatus m) v (message m)
    (quitting m) (activeInput m) (editingTaskID m) (viewAsTable m).
Definition with_message v m :=
  mkModel (store m) (model_tasks m) (cursor m) (viewMode m) (textInput m)
    (categoryInput m) (filterStatus m) (filterCategory m) v
    (quitting m) (activeInput m) (editingTaskID m) (viewAsTable m).
Definition with_quitting v m :=
  mkModel (store m) (model_tasks m) (cursor m) (viewMode m) (textInput m)
    (categoryInput m) (filterStatus m) (filterCategory m) (message m)
    v (activeInput m) (editingTaskID m) (viewAsTable m).
Definition with_activeInput v m :=
  mkModel (store m) (model_tasks m) (cursor m) (viewMode m) (textInput m)
    (categoryInput m) (filterStatus m) (filterCategory m) (message m)
    (quitting m) v (editingTaskID m) (viewAsTable m).
Definition with_editingTaskID v m :=
  mkModel (store m) (model_tasks m) (cursor m) (viewMode m) (textInput m)
    (categoryInput m) (filterStatus m) (filterCategory m) (message m)
    (quitting m) (activeInput m) v (viewAsTable m).
Definition with_viewAsTable v m :=
  mkModel (store m) (model_tasks m) (cursor m) (viewMode m) (textInput m)
    (categoryInput m) (filterStatus m) (filterCategory m) (message m)
    (quitting m) (activeInput m) (editingTaskID m) v.

(** [len(m.tasks)], an int. *)
Definition len_tasks (m : model) : Z := Z.of_nat (length (model_tasks m)).

(** hasCurrentTask checks if there's a valid task at the cursor position *)
Definition hasCurrentTask (m : model) : bool :=
  (0 <? len_tasks m) && (cursor m <? len_tasks m).

(** getCurrentTask returns the task at the cursor position: [m.tasks[m.cursor]],
    which panics ([None]) when the cursor is not an index of the slice. *)
Definition getCurrentTask (m : model) : option Task :=
  if cursor m <? 0 then None else model_tasks m !! Z.to_nat (cursor m).

(** ** ui.go: how a status is displayed *)

(** Color constants *)
Definition colorPending : string := "250".
Definition colorInProgress : string := "214".
Definition colorDone : string := "34".

(** getStatusIcon: the icons are the byte strings of the source file. *)
Definition getStatusIcon (status : TaskStatus) : string :=
  if decide (status = StatusDone) then
    stringOf [195; 162; 197; 147; 226; 128; 156]%nat
  else if decide (status = StatusInProgress) then
    stringOf [195; 162; 197; 184; 194; 179]%nat
  else stringOf [195; 162; 226; 128; 148; 226; 128; 185]%nat.

Definition getStatusColor (status : TaskStatus) : string :=
  if decide (status = StatusDone) then colorDone
  else if decide (status = StatusInProgress) then colorInProgress
  else colorPending.

Section Controller.

Variable marshalIndent : list Task -> string.
Variable formatMicro : Z -> string.

(** [textinput.Model.SetValue] and [textinput.Model.Update] of bubbles: how
    a text input sanitises a value and edits it on a message. *)
Variable SetValue : string -> TextInput -> TextInput.
Variable textinput_Update : TextInput -> Msg -> TextInput * Cmd.

(** initialModel creates the initial model.  In the source [m.tasks] is
    here the slice of the store itself; every handler that changes the
    store assigns a fresh slice to [m.tasks] (refreshTasks) before it reads
    it again, so the sharing is never observed and both are lists. *)
Definition initialModel (st : TaskStore) : model :=
  let ti := textinput_New in
  let ti := with_Placeholder "Enter task description..." ti in
  let ti := Focus ti in
  let ti := with_CharLimit 256 ti in
  let ti := with_Width 50 ti in
  let ci := textinput_New in
  let ci := with_Placeholder "Enter category (work, personal, etc.)..." ci in
  let ci := with_CharLimit 50 ci in
  let ci := with_Width 50 ci in
  mkModel st (GetAll st) 0 ModeList ti ci None None "" false 0 "" true.

Definition refreshTasks (m : model) : model :=
  let opts := mkFilterOptions (filterStatus m) (filterCategory m) in
  with_tasks (Filter (store m) opts) m.

(** updateTaskStatus updates the status of the current task and refreshes *)
Definition updateTaskStatus (env : Env) (status : TaskStatus) (m : model)
    (fs : FS) : option (model * FS) :=
  if hasCurrentTask m then
    task ← getCurrentTask m;
    let '(s', fs', err) :=
      UpdateStatus marshalIndent env (ID task) status (store m) fs in
    let m := with_store s' m in
    let m := match err with
             | Some e => with_message ("Error updating task: " +:+ e) m
             | None => m
             end in
    Some (refreshTasks m, fs')
  else Some (m, fs).

(** applyStatusFilter applies a status filter and returns to list mode *)
Definition applyStatusFilter (status : TaskStatus) (msg : string) (m : model)
  : model :=
  let m := with_filterStatus (Some status) m in
  let m := refreshTasks m in
  let m := with_viewMode ModeList m in
  let m := with_message msg m in
  with_cursor 0 m.

(** The cursor is an int; it is incremented only below [len(m.tasks)-1] and
    decremented only above 0, so the arithmetic never leaves the range of
    int and is written on [Z]. *)
Definition updateListMode (env : Env) (m : model) (fs : FS) (msg : KeyMsg)
  : option (model * FS * Cmd) :=
  let k := KeyMsg_String msg in
  if decide (k = "ctrl+c" ∨ k = "q") then
    Some (with_quitting true m, fs, Quit)
  else if decide (k = "n") then
    let m := with_viewMode ModeCreate m in
    let m := with_textInput (Reset (textInput m)) m in
    let m := with_categoryInput (Reset (categoryInput m)) m in
    let m := with_textInput (Focus (textInput m)) m in
    let m := with_categoryInput (Blur (categoryInput m)) m in
    let m := with_activeInput 0 m in
    let m := with_editingTaskID "" m in
    let m := with_message
      "Enter task details (Tab to switch fields, Enter to save, ESC to cancel)"
      m in
    Some (m, fs, Blink)
  else if decide (k = "e") then
    if hasCurrentTask m then
      task ← getCurrentTask m;
      let m := with_viewMode ModeEdit m in
      let m := with_editingTaskID (ID task) m in
      let m := with_textInput (SetValue (Description task) (textInput m)) m in
      let m := with_categoryInput
                 (SetValue (Category task) (categoryInput m)) m in
      let m := with_textInput (Focus (textInput m)) m in
      let m := with_categoryInput (Blur (categoryInput m)) m in
      let m := with_activeInput 0 m in
      let m := with_message
        "Edit task (Tab to switch fields, Enter to save, ESC to cancel)" m in
      Some (m, fs, Blink)
    else Some (m, fs, CmdNil)
  else if decide (k = "f") then
    let m := with_viewMode ModeFilter m in
    let m := with_message
      "Filter: (a)ll, (p)ending, (i)n-progress, (d)one, (c)ategory, ESC to cancel"
      m in
    Some (m, fs, CmdNil)
  else if decide (k = "v") then
    let m := with_viewAsTable (negb (viewAsTable m)) m in
    let m := if viewAsTable m then with_message "Switched to table view" m
             else with_message "Switched to list view" m in
    Some (m, fs, CmdNil)
  else if decide (k = "up" ∨ k = "k") then
    let m := if 0 <? cursor m then with_cursor (cursor m - 1) m else m in
    Some (m, fs, CmdNil)
  else if decide (k = "down" ∨ k = "j") then
    let m := if cursor m <? len_tasks m - 1
             then with_cursor (cursor m + 1) m else m in
    Some (m, fs, CmdNil)
  else if decide (k = "d") then
    if hasCurrentTask m then
      task ← getCurrentTask m;
      if decide (Status task = StatusDone) then
        '(m, fs) ← updateTaskStatus env StatusPending m fs;
        Some (with_message "Task marked as pending" m, fs, CmdNil)
      else
        '(m, fs) ← updateTaskStatus env StatusDone m fs;
        Some (with_message "Task marked as done!" m, fs, CmdNil)
    else Some (m, fs, CmdNil)
  else if decide (k = "i") then
    if hasCurrentTask m then
      '(m, fs) ← updateTaskStatus env StatusInProgress m fs;
      Some (with_message "Task marked as in-progress" m, fs, CmdNil)
    else Some (m, fs, CmdNil)
  else if decide (k = "p") then
    if hasCurrentTask m then
      '(m, fs) ← updateTaskStatus env StatusPending m fs;
      Some (with_message "Task marked as pending" m, fs, CmdNil)
    else Some (m, fs, CmdNil)
  else if decide (k = "x") then
    if hasCurrentTask m then
      task ← getCurrentTask m;
      let '(s', fs', err) := Delete marshalIndent env (ID task) (store m) fs in
      let m := with_store s' m in
      let m := match err with
               | Some e => with_message ("Error deleting task: " +:+ e) m
               | None => with_message "Task deleted" m
               end in
      let m := refreshTasks m in
      let m := if (len_tasks m <=? cursor m) && (0 <? cursor m)
               then with_cursor (cursor m - 1) m else m in
      Some (m, fs', CmdNil)
    else Some (m, fs, CmdNil)
  else Some (m, fs, CmdNil).

(** The case [tea.KeyTab] of updateCreateMode and updateEditMode: switch
    between description and category inputs. *)
Definition switchInput (m : model) : model :=
  if decide (activeInput m = 0) then
    let m := with_activeInput 1 m in
    let m := with_textInput (Blur (textInput m)) m in
    with_categoryInput (Focus (categoryInput m)) m
  else
    let m := with_activeInput 0 m in
    let m := with_categoryInput (Blur (categoryInput m)) m in
    with_textInput (Focus (textInput m)) m.

(** The end of updateCreateMode and updateEditMode: any other key goes to
    the input that is active. *)
Definition forwardKey (m : model) (fs : FS) (msg : KeyMsg)
  : option (model * FS * Cmd) :=
  if decide (activeInput m = 0) then
    let '(ti, cmd) := textinput_Update (textInput m) (KeyPress msg) in
    Some (with_textInput ti m, fs, cmd)
  else
    let '(ci, cmd) := textinput_Update (categoryInput m) (KeyPress msg) in
    Some (with_categoryInput ci m, fs, cmd).

Definition updateCreateMode (env : Env) (m : model) (fs : FS) (msg : KeyMsg)
  : option (model * FS * Cmd) :=
  match key_Type msg with
  | KeyEsc =>
      let m := with_viewMode ModeList m in
      let m := with_message "Task creation cancelled" m in
      Some (m, fs, CmdNil)
  | KeyTab => Some (switchInput m, fs, Blink)
  | KeyEnter =>
      let description := TrimSpace (Value (textInput m)) in
      if decide (description = "") then
        let m := with_viewMode ModeList m in
        let m := with_message
                   "Task creation cancelled - description is required" m in
        Some (m, fs, CmdNil)
      else
        let categoryStr := TrimSpace (Value (categoryInput m)) in
        if decide (categoryStr = "") then
          let m := with_viewMode ModeList m in
          let m := with_message
                     "Task creation cancelled - category is required" m in
          Some (m, fs, CmdNil)
        else
          let category : TaskCategory := categoryStr in
          let '(s', fs', err) :=
            Add marshalIndent formatMicro env description category
                (store m) fs in
          let m := with_store s' m in
          let m := match err with
                   | Some e => with_message ("Error creating task: " +:+ e) m
                   | None =>
                       with_message ("Task created: " +:+ description +:+
                                     " [" +:+ categoryStr +:+ "]") m
                   end in
          let m := refreshTasks m in
          let m := with_viewMode ModeList m in
          Some (m, fs', CmdNil)
  | _ => forwardKey m fs msg
  end.

Definition updateEditMode (env : Env) (m : model) (fs : FS) (msg : KeyMsg)
  : option (model * FS * Cmd) :=
  match key_Type msg with
  | KeyEsc =>
      let m := with_viewMode ModeList m in
      let m := with_message "Edit cancelled" m in
      let m := with_editingTaskID "" m in
      Some (m, fs, CmdNil)
  | KeyTab => Some (switchInput m, fs, Blink)
  | KeyEnter =>
      let description := TrimSpace (Value (textInput m)) in
      if decide (description = "") then
        let m := with_viewMode ModeList m in
        let m := with_message "Edit cancelled - description is required" m in
        let m := with_editingTaskID "" m in
        Some (m, fs, CmdNil)
      else
        let categoryStr := TrimSpace (Value (categoryInput m)) in
        let category : TaskCategory := categoryStr in
        let '(s', fs', err) :=
          Update marshalIndent env (editingTaskID m) description category
                 (store m) fs in
        let m := with_store s' m in
        let m := match err with
                 | Some e => with_message ("Error updating task: " +:+ e) m
                 | None => with_message "Task updated successfully" m
                 end in
        let m := refreshTasks m in
        let m := with_editingTaskID "" m in
        let m := with_viewMode ModeList m in
        Some (m, fs', CmdNil)
  | _ => forwardKey m fs msg
  end.

Definition updateFilterMode (m : model) (fs : FS) (msg : KeyMsg)
  : option (model * FS * Cmd) :=
  let k := KeyMsg_String msg in
  if decide (k = "esc") then
    let m := with_viewMode ModeList m in
    let m := with_message "Filter cancelled" m in
    Some (m, fs, CmdNil)
  else if decide (k = "a") then
    let m := with_filterStatus None m in
    let m := with_filterCategory None m in
    let m := refreshTasks m in
    let m := with_viewMode ModeList m in
    let m := with_message "Showing all tasks" m in
    let m := with_cursor 0 m in
    Some (m, fs, CmdNil)
  else if decide (k = "p") then
    Some (applyStatusFilter StatusPending "Showing pending tasks" m,
          fs, CmdNil)
  else if decide (k = "i") then
    Some (applyStatusFilter StatusInProgress "Showing in-progress tasks" m,
          fs, CmdNil)
  else if decide (k = "d") then
    Some (applyStatusFilter StatusDone "Showing done tasks" m, fs, CmdNil)
  else if decide (k = "c") then
    let m := with_viewMode ModeFilterCategory m in
    let m := with_message "Select category to filter by" m in
    Some (m, fs, CmdNil)
  else Some (m, fs, CmdNil).

Definition updateFilterCategoryMode (env : Env) (m : model) (fs : FS)
    (msg : KeyMsg) : option (model * FS * Cmd) :=
  let k := KeyMsg_String msg in
  if decide (k = "esc") then
    let m := with_viewMode ModeList m in
    let m := with_message "Filter cancelled" m in
    Some (m, fs, CmdNil)
  else if decide (k = "a") then
    let m := with_filterCategory None m in
    let m := refreshTasks m in
    let m := with_viewMode ModeList m in
    let m := with_message "Showing all categories" m in
    let m := with_cursor 0 m in
    Some (m, fs, CmdNil)
  else
    (* Check if user pressed a number key for category selection *)
    let categories := GetCategories env (store m) in
    match k with
    | String c EmptyString =>
        let b := Z.of_nat (nat_of_ascii c) in
        if (49 <=? b) && (b <=? 57) then
          let idx := b - 49 in
          if idx <? Z.of_nat (length categories) then
            categoryStr ← categories !! Z.to_nat idx;
            let category : TaskCategory := categoryStr in
            let m := with_filterCategory (Some category) m in
            let m := refreshTasks m in
            let m := with_viewMode ModeList m in
            let m := with_message
                       ("Showing tasks in category: " +:+ categoryStr) m in
            let m := with_cursor 0 m in
            Some (m, fs, CmdNil)
          else Some (m, fs, CmdNil)
        else Some (m, fs, CmdNil)
    | _ => Some (m, fs, CmdNil)
    end.

(** The method Update of [model] ([Update] is the method of the store). *)
Definition model_Update (env : Env) (m : model) (fs : FS) (msg : Msg)
  : option (model * FS * Cmd) :=
  match msg with
  | KeyPress k =>
      match viewMode m with
      | ModeCreate => updateCreateMode env m fs k
      | ModeEdit => updateEditMode env m fs k
      | ModeFilter => updateFilterMode m fs k
      | ModeFilterCategory => updateFilterCategoryMode env m fs k
      | ModeList => updateListMode env m fs k
      end
  | OtherMsg _ =>
      let '(ti, cmd) := textinput_Update (textInput m) msg in
      Some (with_textInput ti m, fs, cmd)
  end.

(** The event loop: the messages are handled one after the other, each in
    the environment it meets; [None] when a handler panics. *)
Fixpoint run (events : list (Env * Msg)) (m : model) (fs : FS)
  : option (model * FS) :=
  match events with
  | [] => Some (m, fs)
  | (env, msg) :: events' =>
      '(m', fs', _) ← model_Update env m fs msg;
      run events' m' fs'
  end.

End Controller.

(** ** Intents

    The keys that carry the intents the specification speaks of. *)

(** Moving down and up in the list. *)
Definition isDown (k : KeyMsg) : Prop :=
  KeyMsg_String k = "down" ∨ KeyMsg_String k = "j".
Definition isUp (k : KeyMsg) : Prop :=
  KeyMsg_String k = "up" ∨ KeyMsg_String k = "k".

(** The text of the key of the digit [d], for [0 <= d <= 9]. *)
Definition digitKey (d : Z) : string :=
  String (ascii_of_nat (Z.to_nat (48 + d))) "".

(** Cancelling in a mode that is not the list. *)
Definition cancelIntent (mode : ViewMode) (k : KeyMsg) : Prop :=
  match mode with
  | ModeCreate | ModeEdit => key_Type k = KeyEsc
  | ModeFilter | ModeFilterCategory => KeyMsg_String k = "esc"
  | ModeList => False
  end.

(** Confirming in a mode that is not the list: Enter in the two forms, a
    choice of the status menu, and in the category menu "a" or the number
    of a category that [categories] has. *)
Definition confirmIntent (mode : ViewMode) (categories : list string)
    (k : KeyMsg) : Prop :=
  match mode with
  | ModeCreate | ModeEdit => key_Type k = KeyEnter
  | ModeFilter =>
      KeyMsg_String k = "a" ∨ KeyMsg_String k = "p" ∨
      KeyMsg_String k = "i" ∨ KeyMsg_String k = "d"
  | ModeFilterCategory =>
      KeyMsg_String k = "a" ∨
      ∃ d, 1 ≤ d ≤ 9 ∧ d ≤ Z.of_nat (length categories) ∧
           KeyMsg_String k = digitKey d
  | ModeList => False
  end.

(** The key presses [moves] as events. *)
Definition keyEvents (moves : list (Env * KeyMsg)) : list (Env * Msg) :=
  map (fun ek => (ek.1, KeyPress ek.2)) moves.

(** ** Instances for examples

    One choice of the library functions and of the environment, to run the
    controller on concrete inputs. *)

Definition exampleMarshal (ts : list Task) : string :=
  String.concat "," (map ID ts).
Definition exampleFormat (micro : Z) : string := pretty micro.
Definition exampleSetValue (v : string) (ti : TextInput) : TextInput :=
  mkTextInput (Placeholder ti) (CharLimit ti) (Width ti) v (ti_focus ti).
Definition exampleInputUpdate (ti : TextInput) (msg : Msg) : TextInput * Cmd :=
  match msg with
  | KeyPress k =>
      match key_Type k with
      | KeyRunes => (exampleSetValue (ti_value ti +:+ Runes k) ti, CmdNil)
      | _ => (ti, CmdNil)
      end
  | OtherMsg _ => (ti, CmdNil)
  end.

(** The clock reads [now] and then one nanosecond more at each reading;
    the write succeeds; the map is ranged over in the order [order]. *)
Definition exampleEnv (now : Time) (order : list nat) : Env :=
  mkEnv (fun k => now + Z.of_nat k) WriteOk order.

Definition runeKey (r : string) : KeyMsg := mkKeyMsg KeyRunes r false false.
Definition specialKey (t : KeyType) : KeyMsg := mkKeyMsg t "" false false.

Definition exampleStep :=
  model_Update exampleMarshal exampleFormat exampleSetValue exampleInputUpdate.
Definition exampleRun :=
  run exampleMarshal exampleFormat exampleSetValue exampleInputUpdate.

Definition emptyStore : TaskStore := mkTaskStore "tasks.json" [].
Definition oneTaskStore : TaskStore :=
  mkTaskStore "tasks.json"
    [mkTask "20240101120000.000001" "Buy milk" "pending" "errands" 10 10].
Definition threeTaskStore : TaskStore :=
  mkTaskStore "tasks.json"
    [mkTask "1" "Write report" "pending" "work" 10 10;
     mkTask "2" "Call home" "done" "personal" 20 25;
     mkTask "3" "Review patch" "pending" "work" 30 30].

Definition keyJ : KeyMsg := runeKey "j".
Definition keyK : KeyMsg := runeKey "k".
Definition keyX : KeyMsg := runeKey "x".
Definition keyA : KeyMsg := runeKey "a".
Definition keyEnter : KeyMsg := specialKey KeyEnter.
Definition env0 : Env := exampleEnv 0 [].

(** The create form over the empty store, filled with "Buy milk" and no
    category. *)
Definition buyMilkForm : model :=
  with_textInput (exampleSetValue "Buy milk" (textInput (initialModel emptyStore)))
    (with_viewMode ModeCreate (initialModel emptyStore)).

(** The two menus over the store of three tasks, with the status filter
    "pending" active. *)
Definition statusMenu : model :=
  with_viewMode ModeFilter
    (applyStatusFilter StatusPending "Showing pending tasks"
       (initialModel threeTaskStore)).
Definition categoryMenu : model := with_viewMode ModeFilterCategory statusMenu.

(** The list of the three tasks with the cursor on the last row. *)
Definition lastRow : model := with_cursor 2 (initialModel threeTaskStore).

(** The create form over the empty store, filled with "Buy milk" and the
    category "errands". *)
Definition errandsForm : model :=
  with_categoryInput (exampleSetValue "errands" (categoryInput buyMilkForm))
    buyMilkForm.

(** The edit form over the store of three tasks, on the second task, with
    a new description and no category. *)
Definition editForm : model :=
  with_textInput
    (exampleSetValue "  Call mum " (textInput (initialModel threeTaskStore)))
    (with_editingTaskID "2"
       (with_cursor 1
          (with_viewMode ModeEdit (initialModel threeTaskStore)))).

(** The category menu over the store of three tasks, no filter active. *)
Definition categoryMenuAll : model :=
  with_viewMode ModeFilterCategory (initialModel threeTaskStore).

(** ** Predicates of the properties *)

(** The condition of the specification for a task to pass a filter: every
    option that is set equals the field of the task. *)
Definition matches (F : FilterOptions) (T : Task) : Prop :=
  (opt_Status F = None ∨ opt_Status F = Some (Status T)) ∧
  (opt_Category F = None ∨ opt_Category F = Some (Category T)).

#[global] Instance matches_dec F T : Decision (matches F T).
Proof. unfold matches. apply _. Defined.

(** The visible list is the filter of the store by the active options. *)
Definition filterOptions (m : model) : FilterOptions :=
  mkFilterOptions (filterStatus m) (filterCategory m).

Definition visibleOK (m : model) : Prop :=
  model_tasks m = Filter (store m) (filterOptions m).

(** Store, filters and visible list of [m'] are those of [m]. *)
Definition sameView (m m' : model) : Prop :=
  store m' = store m ∧ filterStatus m' = filterStatus m ∧
  filterCategory m' = filterCategory m ∧ model_tasks m' = model_tasks m.

(** The invariant of the controller: the visible list is the filter of
    the store, and the cursor is not negative. *)
Definition Inv (m : model) : Prop := visibleOK m ∧ 0 ≤ cursor m.

(** ** Predicates of the further properties *)

(** What a method that saves does to the disk, for its result [r] on the
    store [s] and the disk [fs]: the other files stay, an error comes from
    a write that failed, and without an error either nothing changed or the
    file holds the serialisation of the tasks in memory. *)
Definition writes (marshalIndent : list Task → string) (s : TaskStore)
    (fs : FS) (env : Env) (r : TaskStore * FS * error) : Prop :=
  (∀ p, p ≠ filepath s → r.1.2 !! p = fs !! p) ∧
  (r.2 ≠ None → write env ≠ WriteOk) ∧
  (r.2 = None →
   (r.1.1 = s ∧ r.1.2 = fs) ∨
   r.1.2 !! filepath s = Some (marshalIndent (tasks r.1.1))).

(** The bounds of the cursor that every handler keeps: it is at most the
    number of visible tasks, and below it while a task is edited. *)
Definition cursorOK (m : model) : Prop :=
  0 ≤ cursor m ≤ len_tasks m ∧
  (viewMode m = ModeEdit → cursor m < len_tasks m).

(** The state of the two forms: the active input is one of the two, and
    the task that is edited is the one under the cursor. *)
Definition formOK (m : model) : Prop :=
  (activeInput m = 0 ∨ activeInput m = 1) ∧
  (viewMode m = ModeEdit →
   ∃ t, getCurrentTask m = Some t ∧ editingTaskID m = ID t) ∧
  (viewMode m ≠ ModeEdit → editingTaskID m = "").

(** The events on which a handler calls a method of the store that
    writes: a status key or the delete key on a current task, Enter in the
    create form with both fields filled, Enter in the edit form with a
    description. *)
Definition isEnter (k : KeyMsg) : bool :=
  match key_Type k with KeyEnter => true | _ => false end.

Definition mutating (m : model) (msg : Msg) : bool :=
  match msg with
  | KeyPress k =>
      match viewMode m with
      | ModeList =>
          bool_decide (KeyMsg_String k ∈ ["d"; "i"; "p"; "x"]) &&
          hasCurrentTask m
      | ModeCreate =>
          isEnter k &&
          bool_decide (TrimSpace (Value (textInput m)) ≠ "") &&
          bool_decide (TrimSpace (Value (categoryInput m)) ≠ "")
      | ModeEdit =>
          isEnter k && bool_decide (TrimSpace (Value (textInput m)) ≠ "")
      | ModeFilter | ModeFilterCategory => false
      end
  | OtherMsg _ => false
  end.


(** The status that a key of the status menu chooses. *)
Definition statusOfKey (k : string) : option TaskStatus :=
  if decide (k = "p") then Some StatusPending
  else if decide (k = "i") then Some StatusInProgress
  else if decide (k = "d") then Some StatusDone
  else None.

(** The status that a status key of the list gives to the task [t] under
    the cursor: "d" toggles between done and pending. *)
Definition statusKey (k : string) (t : Task) : option TaskStatus :=
  if decide (k = "d") then
    Some (if decide (Status t = StatusDone) then StatusPending
          else StatusDone)
  else if decide (k = "i") then Some StatusInProgress
  else if decide (k = "p") then Some StatusPending
  else None.

(** Focus and active input agree: the description input has the focus
    exactly when the active input is 0, the category input when it is 1. *)
Definition focusOK (m : model) : Prop :=
  ti_focus (textInput m) = bool_decide (activeInput m = 0) ∧
  ti_focus (categoryInput m) = bool_decide (activeInput m = 1).

(** The disk [fs'] and the store [s'] after events that started from [fs]
    and [s]: the path of the store and the other files are the same, and
    when every write succeeded either nothing changed or the file holds the
    serialisation of the tasks in memory. *)
Definition diskOK (marshalIndent : list Task → string) (allOk : Prop)
    (s : TaskStore) (fs : FS) (s' : TaskStore) (fs' : FS) : Prop :=
  filepath s' = filepath s ∧
  (∀ p, p ≠ filepath s → fs' !! p = fs !! p) ∧
  (allOk →
   (s' = s ∧ fs' = fs) ∨
   fs' !! filepath s = Some (marshalIndent (tasks s'))).

(** ** Tactics *)

(** Case analysis of a handler that returned: conditions, index
    expressions and the results of the store are taken apart. *)
Ltac handler_cases H :=
  repeat first
    [ progress simplify_eq
    | progress (simpl in H)
    | match type of H with
      | context [decide ?P] => destruct (decide P)
      | context [hasCurrentTask ?m] => destruct (hasCurrentTask m) eqn:?
      | context [getCurrentTask ?m] => destruct (getCurrentTask m) eqn:?
      | context [?x ≫= _] => destruct x eqn:?
      | context [UpdateStatus ?a ?b ?c ?d ?e ?f] =>
          destruct (UpdateStatus a b c d e f) as [[? ?] [?|]] eqn:?
      | context [Update ?a ?b ?c ?d ?e ?f ?g] =>
          destruct (Update a b c d e f g) as [[? ?] [?|]] eqn:?
      | context [Delete ?a ?b ?c ?d ?e] =>
          destruct (Delete a b c d e) as [[? ?] [?|]] eqn:?
      | context [Add ?a ?b ?c ?d ?e ?f ?g] =>
          destruct (Add a b c d e f g) as [[? ?] [?|]] eqn:?
      | context [if ?b then _ else _] => destruct b eqn:?
      | context [match ?x with _ => _ end] => destruct x eqn:?
      end ].

Ltac unfold_handlers H :=
  unfold model_Update, updateListMode, updateCreateMode, updateEditMode,
    updateFilterMode, updateFilterCategoryMode, updateTaskStatus,
    forwardKey, switchInput, applyStatusFilter in H.

(** Decides the comparisons of a key that is known with the keys of the
    cases of a handler. *)
Ltac key_cases :=
  repeat first
    [ rewrite decide_True by (first [done | by left | by right])
    | rewrite decide_False by (intuition discriminate) ].

(** * Properties *)

(** ** The store *)

Lemma Filter_step_matches F filtered T :
  Filter_step F filtered T
  = if decide (matches F T) then filtered ++ [T] else filtered.
Proof.
  destruct (decide (matches F T)) as [Hm|Hm]; unfold matches in Hm;
    destruct F as [[st|] [c|]]; unfold Filter_step; simpl in *;
    repeat case_bool_decide; try reflexivity; exfalso.
  all: try (destruct Hm as [[?|?] [?|?]]; congruence).
  all: try (apply Hm; split; [first [by left | right; congruence]
                             | first [by left | right; congruence]]).
Qed.

Lemma Filter_loop F ts : ∀ filtered,
  foldl (Filter_step F) filtered ts = filtered ++ filter (matches F) ts.
Proof.
  induction ts as [|T ts IH]; intros filtered; simpl.
  - by rewrite app_nil_r.
  - rewrite IH, Filter_step_matches, filter_cons.
    case_decide; [by rewrite <- app_assoc | done].
Qed.

Lemma Filter_filter s F : Filter s F = filter (matches F) (tasks s).
Proof. unfold Filter. by rewrite Filter_loop. Qed.

Lemma Filter_set_tasks ts s F :
  Filter (set_tasks ts s) F = filter (matches F) ts.
Proof. by rewrite Filter_filter. Qed.

Lemma Filter_no_options s : Filter s (mkFilterOptions None None) = tasks s.
Proof.
  rewrite Filter_filter. induction (tasks s) as [|T ts IH]; [done|].
  rewrite filter_cons, decide_True; [by f_equal|]. split; by left.
Qed.

(** C2. Filter keeps exactly the stored tasks that satisfy every option
    that is set, in the order of the store; with no option set it returns
    the whole store; when no task passes, the result is the empty list. *)
Theorem Filter_correct (s : TaskStore) (F : FilterOptions) :
  (∀ T, T ∈ Filter s F ↔
        T ∈ tasks s ∧
        (opt_Status F = None ∨ opt_Status F = Some (Status T)) ∧
        (opt_Category F = None ∨ opt_Category F = Some (Category T))) ∧
  Filter s F `sublist_of` tasks s ∧
  Filter s F = filter (matches F) (tasks s) ∧
  Filter s (mkFilterOptions None None) = tasks s ∧
  (Filter s F = [] ↔ ∀ T, T ∈ tasks s → ¬ matches F T).
Proof.
  rewrite !Filter_filter.
  split; [|split; [|split; [|split]]].
  - intros T. rewrite list_elem_of_filter. unfold matches. tauto.
  - apply sublist_filter.
  - reflexivity.
  - induction (tasks s) as [|T ts IH]; [done|].
    rewrite filter_cons, decide_True; [by f_equal|].
    split; by left.
  - split.
    + intros Hnil T HT HF.
      assert (T ∈ filter (matches F) (tasks s)) as Hin
        by (apply list_elem_of_filter; by split).
      rewrite Hnil in Hin. by apply not_elem_of_nil in Hin.
    + intros Hnone. induction (tasks s) as [|T ts IH]; [done|].
      rewrite filter_cons, decide_False.
      * apply IH. intros T' HT'. apply Hnone. by right.
      * apply Hnone. by left.
Qed.

Lemma findTaskIndex_from_absent id ts : ∀ i,
  id ∉ ID <$> ts → findTaskIndex_from i ts id = -1.
Proof.
  induction ts as [|t ts IH]; intros i Hid; simpl; [done|].
  simpl in Hid. apply not_elem_of_cons in Hid as [Hne Hid].
  rewrite decide_False by congruence. by apply IH.
Qed.

Lemma findTaskIndex_from_found id ts : ∀ i,
  id ∈ ID <$> ts →
  ∃ (n : nat) t, findTaskIndex_from i ts id = i + Z.of_nat n ∧
                 ts !! n = Some t ∧ ID t = id.
Proof.
  induction ts as [|t ts IH]; intros i Hid; simpl in *.
  - by apply not_elem_of_nil in Hid.
  - case_decide as Ht.
    + exists 0%nat, t. split; [lia|done].
    + apply elem_of_cons in Hid as [Hid|Hid]; [congruence|].
      destruct (IH (i + 1) Hid) as (n & t' & -> & Hn & Ht').
      exists (S n), t'. split; [lia|done].
Qed.

(** Two elements of a list whose images under [f] are all different are
    equal when their images are. *)
Lemma NoDup_fmap_eq {A B} (f : A → B) (l : list A) x y :
  NoDup (f <$> l) → x ∈ l → y ∈ l → f x = f y → x = y.
Proof.
  intros Hnd [i Hi]%list_elem_of_lookup [j Hj]%list_elem_of_lookup Hxy.
  assert (i = j) as ->.
  { eapply NoDup_lookup; [exact Hnd| |].
    - rewrite list_lookup_fmap, Hi. reflexivity.
    - rewrite list_lookup_fmap, Hj. simpl. by rewrite Hxy. }
  congruence.
Qed.

(** The visible lengths before and after the removal of the task at
    position [n]. *)
Lemma filter_remove_length (P : Task → Prop) `{∀ t, Decision (P t)}
    (ts : list Task) (n : nat) (t : Task) :
  ts !! n = Some t →
  length (filter P ts) =
  (length (filter P (take n ts ++ drop (S n) ts))
   + (if decide (P t) then 1 else 0))%nat.
Proof.
  intros Hn. rewrite <- (take_drop_middle ts n t Hn) at 1.
  rewrite !filter_app, filter_cons, !length_app.
  case_decide; simpl; lia.
Qed.

Lemma rangeOrder_Permutation {A} (order : list nat) : ∀ keys : list A,
  rangeOrder order keys ≡ₚ keys.
Proof.
  induction order as [|k order IH]; intros keys; simpl; [done|].
  destruct keys as [|x0 keys]; [done|].
  destruct ((x0 :: keys) !! _) as [x|] eqn:Hx; [|done].
  rewrite IH. symmetry. by apply delete_Permutation.
Qed.

Lemma categorySet_loop c ts : ∀ acc : gset string,
  c ∈ foldl (fun acc task =>
               if decide (Category task = "") then acc
               else acc ∪ {[ Category task ]}) acc ts
  ↔ c ∈ acc ∨ (c ≠ "" ∧ ∃ t, t ∈ ts ∧ Category t = c).
Proof.
  induction ts as [|t ts IH]; intros acc; simpl.
  - split; [by left|]. intros [?|(_ & t & Ht & _)]; [done|].
    by apply not_elem_of_nil in Ht.
  - rewrite IH. split.
    + intros [Hc|(Hne & t' & Ht' & Hcat)].
      * case_decide as He; [by left|].
        apply elem_of_union in Hc as [Hc|Hc%elem_of_singleton]; [by left|].
        right. split; [congruence|]. exists t. split; [by left|done].
      * right. split; [done|]. exists t'. split; [by right|done].
    + intros [Hc|(Hne & t' & Ht' & Hcat)].
      * left. case_decide; [done|]. apply elem_of_union. by left.
      * apply elem_of_cons in Ht' as [->|Ht'].
        -- left. rewrite decide_False by congruence.
           apply elem_of_union. right. by apply elem_of_singleton.
        -- right. split; [done|]. by exists t'.
Qed.

Lemma elem_of_categorySet c ts :
  c ∈ categorySet ts ↔ c ≠ "" ∧ ∃ t, t ∈ ts ∧ Category t = c.
Proof.
  unfold categorySet. rewrite categorySet_loop. split; [|by right].
  intros [Hc|?]; [|done]. by apply not_elem_of_empty in Hc.
Qed.

Lemma append_loop {A} (l : list A) : ∀ acc,
  foldl (fun categories category => categories ++ [category]) acc l
  = acc ++ l.
Proof.
  induction l as [|x l IH]; intros acc; simpl; [by rewrite app_nil_r|].
  by rewrite IH, <- app_assoc.
Qed.

Lemma GetCategories_rangeOrder env s :
  GetCategories env s
  = rangeOrder (mapOrder env) (elements (categorySet (tasks s))).
Proof. unfold GetCategories. by rewrite append_loop. Qed.

(** GetCategories lists each category in use once, in some order. *)
Lemma GetCategories_spec env s :
  NoDup (GetCategories env s) ∧
  length (GetCategories env s) = size (categorySet (tasks s)) ∧
  ∀ c, c ∈ GetCategories env s ↔
       c ≠ "" ∧ ∃ t, t ∈ tasks s ∧ Category t = c.
Proof.
  rewrite GetCategories_rangeOrder.
  pose proof (rangeOrder_Permutation (mapOrder env)
                (elements (categorySet (tasks s)))) as Hperm.
  split; [|split].
  - rewrite Hperm. apply NoDup_elements.
  - by rewrite Hperm.
  - intros c. rewrite Hperm, elem_of_elements. apply elem_of_categorySet.
Qed.

Section StoreProperties.

Variable marshalIndent : list Task -> string.
Variable formatMicro : Z -> string.

Lemma updateAt_absent env change id s fs :
  id ∉ ID <$> tasks s → updateAt marshalIndent env change id s fs = (s, fs, None).
Proof.
  intros Hid. unfold updateAt, findTaskIndex.
  rewrite findTaskIndex_from_absent by done. by rewrite decide_False by lia.
Qed.

(** C4. With an id that no stored task has, the four update methods and
    Delete return nil and leave the store, and the files, as they were. *)
Theorem missing_id_noop (env : Env) (id : string) (s : TaskStore) (fs : FS)
    (status : TaskStatus) (description : string) (category : TaskCategory) :
  id ∉ ID <$> tasks s →
  UpdateStatus marshalIndent env id status s fs = (s, fs, None) ∧
  UpdateDescription marshalIndent env id description s fs = (s, fs, None) ∧
  UpdateCategory marshalIndent env id category s fs = (s, fs, None) ∧
  Update marshalIndent env id description category s fs = (s, fs, None) ∧
  Delete marshalIndent env id s fs = (s, fs, None).
Proof.
  intros Hid.
  unfold UpdateStatus, UpdateDescription, UpdateCategory, Update.
  rewrite !updateAt_absent by done. repeat split.
  unfold Delete, findTaskIndex.
  rewrite findTaskIndex_from_absent by done. by rewrite decide_False by lia.
Qed.

Lemma Delete_found env id s fs :
  id ∈ ID <$> tasks s →
  ∃ (n : nat) t, tasks s !! n = Some t ∧ ID t = id ∧
    (Delete marshalIndent env id s fs).1.1
    = set_tasks (take n (tasks s) ++ drop (S n) (tasks s)) s.
Proof.
  intros Hid. unfold Delete, findTaskIndex.
  destruct (findTaskIndex_from_found id (tasks s) 0 Hid)
    as (n & t & -> & Hn & Ht).
  exists n, t. repeat split; [done..|].
  rewrite decide_True by lia.
  destruct (Save _ _ _ _) as [fs' err]; simpl.
  by replace (Z.to_nat (0 + Z.of_nat n)) with n by lia;
     replace (Z.to_nat (0 + Z.of_nat n + 1)) with (S n) by lia.
Qed.

(** No update changes the id of a task: the ids of the store are the same,
    position by position. *)
Lemma updateAt_IDs env change id s fs :
  (∀ t, ID (change t) = ID t) →
  ID <$> tasks (updateAt marshalIndent env change id s fs).1.1
  = ID <$> tasks s.
Proof.
  intros Hch. unfold updateAt. case_decide; [|done].
  destruct (Save _ _ _ _) as [fs' err]; simpl.
  apply list_eq. intros i. rewrite !list_lookup_fmap.
  destruct (decide (i = Z.to_nat (findTaskIndex s id))) as [->|Hne].
  - rewrite list_lookup_alter_eq.
    destruct (tasks s !! _); simpl; [|done]. by rewrite Hch.
  - by rewrite list_lookup_alter_ne.
Qed.

(** C8. Two tasks added while the clock reads the same microsecond get
    the same id: the ids of the store are no longer pairwise distinct. *)
Theorem Add_same_microsecond (env1 env2 : Env) (d1 d2 : string)
    (c1 c2 : TaskCategory) (s : TaskStore) (fs : FS) :
  clock env1 0%nat `div` 1000 = clock env2 0%nat `div` 1000 →
  let '(s1, fs1, _) := Add marshalIndent formatMicro env1 d1 c1 s fs in
  let '(s2, _, _) := Add marshalIndent formatMicro env2 d2 c2 s1 fs1 in
  length (tasks s2) = S (S (length (tasks s))) ∧
  ¬ NoDup (ID <$> tasks s2).
Proof.
  intros Hclock. unfold Add.
  destruct (Save _ env1 _ _) as [fs1 e1].
  destruct (Save _ env2 _ _) as [fs2 e2]. simpl.
  split; [rewrite !length_app; simpl; lia|].
  rewrite !fmap_app. simpl. unfold generateID. rewrite Hclock.
  rewrite <- app_assoc. simpl.
  intros (_ & _ & [Hnd _]%NoDup_cons)%NoDup_app. apply Hnd. by left.
Qed.

End StoreProperties.

(** ** The controller *)

Lemma getCurrentTask_Some m :
  hasCurrentTask m = true → 0 ≤ cursor m →
  ∃ task, getCurrentTask m = Some task ∧
          model_tasks m !! Z.to_nat (cursor m) = Some task.
Proof.
  unfold hasCurrentTask, getCurrentTask, len_tasks.
  intros [_ Hlt%Z.ltb_lt]%andb_true_iff Hge.
  destruct (cursor m <? 0) eqn:Hneg; [apply Z.ltb_lt in Hneg; lia|].
  destruct (lookup_lt_is_Some_2 (model_tasks m) (Z.to_nat (cursor m)))
    as [task Htask]; [lia|].
  exists task. by rewrite Htask.
Qed.

Lemma digitKey_code d :
  0 ≤ d ≤ 9 →
  ∃ c, digitKey d = String c "" ∧ Z.of_nat (nat_of_ascii c) = 48 + d ∧
       digitKey d ≠ "esc" ∧ digitKey d ≠ "a".
Proof.
  intros Hd.
  assert (d = 0 ∨ d = 1 ∨ d = 2 ∨ d = 3 ∨ d = 4 ∨ d = 5 ∨ d = 6 ∨ d = 7 ∨
          d = 8 ∨ d = 9) as Hcases by lia.
  repeat destruct Hcases as [->|Hcases]; [..|subst d];
    (eexists; split; [reflexivity|]; split; [reflexivity|]; split; discriminate).
Qed.

(** The category menu on the key of a digit: the category of that number
    in the enumeration made now is selected, or nothing happens. *)
Lemma updateFilterCategoryMode_digit env m fs k d :
  0 ≤ d ≤ 9 → KeyMsg_String k = digitKey d →
  let categories := GetCategories env (store m) in
  (1 ≤ d ≤ Z.of_nat (length categories) →
   ∃ c m', categories !! Z.to_nat (d - 1) = Some c ∧
     updateFilterCategoryMode env m fs k = Some (m', fs, CmdNil) ∧
     filterCategory m' = Some c ∧ filterStatus m' = filterStatus m ∧
     model_tasks m'
     = Filter (store m) (mkFilterOptions (filterStatus m) (Some c)) ∧
     viewMode m' = ModeList ∧ cursor m' = 0 ∧ store m' = store m) ∧
  (¬ (1 ≤ d ≤ Z.of_nat (length categories)) →
   updateFilterCategoryMode env m fs k = Some (m, fs, CmdNil)).
Proof.
  intros Hd Hk categories.
  destruct (digitKey_code d Hd) as (c & Hc & Hb & Hesc & Ha).
  unfold updateFilterCategoryMode. rewrite Hk.
  rewrite !decide_False by done. rewrite Hc, Hb. fold categories.
  split; intros Hrange.
  - replace ((49 <=? 48 + d) && (48 + d <=? 57)) with true
      by (symmetry; apply andb_true_iff; split; apply Z.leb_le; lia).
    replace (48 + d - 49 <? Z.of_nat (length categories)) with true
      by (symmetry; apply Z.ltb_lt; lia).
    replace (48 + d - 49) with (d - 1) by lia.
    destruct (lookup_lt_is_Some_2 categories (Z.to_nat (d - 1)))
      as [cat Hcat]; [lia|].
    exists cat. eexists. split; [done|]. unfold TaskCategory in *.
    rewrite Hcat. simpl. split; [reflexivity|]. by repeat split.
  - destruct (Z.leb_spec 49 (48 + d)); simpl; [|done].
    destruct (Z.leb_spec (48 + d) 57); simpl; [|done].
    destruct (Z.ltb_spec (48 + d - 49) (Z.of_nat (length categories)));
      [lia|done].
Qed.

Section ControllerProperties.

Variable marshalIndent : list Task -> string.
Variable formatMicro : Z -> string.
Variable SetValue : string -> TextInput -> TextInput.
Variable textinput_Update : TextInput -> Msg -> TextInput * Cmd.

Abbreviation step :=
  (model_Update marshalIndent formatMicro SetValue textinput_Update).
Abbreviation runFrom :=
  (run marshalIndent formatMicro SetValue textinput_Update).

(** A handler that returns has refreshed the visible list, or has left the
    store, the filters and the visible list alone. *)
Lemma step_view env m fs msg m' fs' c :
  step env m fs msg = Some (m', fs', c) →
  visibleOK m' ∨ sameView m m'.
Proof.
  intros H. unfold_handlers H.
  destruct msg as [k|tag]; [destruct (viewMode m) eqn:Hmode|].
  all: handler_cases H.
  all: repeat case_match; simplify_eq.
  all: first [ left; reflexivity | right; by repeat split ].
Qed.

(** No handler makes the cursor negative. *)
Lemma step_cursor env m fs msg m' fs' c :
  step env m fs msg = Some (m', fs', c) → 0 ≤ cursor m → 0 ≤ cursor m'.
Proof.
  intros H Hc. unfold_handlers H.
  destruct msg as [k|tag]; [destruct (viewMode m) eqn:Hmode|].
  all: handler_cases H.
  all: repeat case_match; simplify_eq; simpl; try lia.
  all: repeat match goal with
         | Hb : _ && _ = true |- _ => apply andb_true_iff in Hb as [? ?]
         | Hb : (_ <? _) = true |- _ => apply Z.ltb_lt in Hb
         end; simpl in *; lia.
Qed.

(** With a cursor that is not negative no handler panics. *)
Lemma step_total env m fs msg :
  0 ≤ cursor m → is_Some (step env m fs msg).
Proof.
  intros Hc. destruct (step env m fs msg) as [r|] eqn:H; [by eexists|].
  exfalso. unfold_handlers H.
  destruct msg as [k|tag]; [destruct (viewMode m) eqn:Hmode|].
  all: handler_cases H.
  all: try match goal with
         | Hh : hasCurrentTask ?x = true, Hg : getCurrentTask ?x = None |- _ =>
             destruct (getCurrentTask_Some x Hh Hc) as (? & ? & ?); congruence
         | Hx : context [UpdateStatus _ _ _ _ _ _] |- _ => handler_cases Hx
         end.
  match goal with
  | Hl : _ !! _ = None, Hb : (_ <? _) = true, Hr : _ && _ = true |- _ =>
      apply lookup_ge_None_1 in Hl; apply Z.ltb_lt in Hb;
      apply andb_true_iff in Hr as [Hr _]; apply Z.leb_le in Hr;
      unfold TaskCategory in *; lia
  end.
Qed.

Lemma initialModel_Inv st : Inv (initialModel st).
Proof.
  split; [|simpl; lia].
  unfold visibleOK, filterOptions. simpl. by rewrite Filter_no_options.
Qed.

Lemma sameView_visibleOK m m' : visibleOK m → sameView m m' → visibleOK m'.
Proof.
  unfold visibleOK, sameView, filterOptions.
  intros Hv (-> & -> & -> & ->). done.
Qed.

Lemma step_Inv env m fs msg :
  Inv m → ∃ m' fs' c, step env m fs msg = Some (m', fs', c) ∧ Inv m'.
Proof.
  intros [Hv Hc].
  destruct (step_total env m fs msg Hc) as [[[m' fs'] c] Hstep].
  exists m', fs', c. split; [done|]. split.
  - destruct (step_view _ _ _ _ _ _ _ Hstep) as [?|Hsame]; [done|].
    by eapply sameView_visibleOK.
  - by eapply step_cursor.
Qed.

Lemma run_Inv events : ∀ m fs,
  Inv m → ∃ m' fs', runFrom events m fs = Some (m', fs') ∧ Inv m'.
Proof.
  induction events as [|[env msg] events IH]; intros m fs HI; simpl.
  - by exists m, fs.
  - destruct (step_Inv env m fs msg HI) as (m1 & fs1 & c & -> & HI1).
    simpl. by apply IH.
Qed.

(** C1. Every sequence of events is handled without a panic and ends in a
    state whose visible list is the filter of the store by the active
    options; and every handler that returns has either refreshed the
    visible list or left the store, the filters and the list alone. *)
Theorem rederivation_invariant :
  (∀ (st : TaskStore) (fs0 : FS) (events : list (Env * Msg)),
     ∃ m fs, runFrom events (initialModel st) fs0 = Some (m, fs) ∧
             model_tasks m
             = Filter (store m)
                 (mkFilterOptions (filterStatus m) (filterCategory m))) ∧
  (∀ env m fs msg m' fs' c,
     step env m fs msg = Some (m', fs', c) →
     model_tasks m'
     = Filter (store m')
         (mkFilterOptions (filterStatus m') (filterCategory m')) ∨
     (store m' = store m ∧ filterStatus m' = filterStatus m ∧
      filterCategory m' = filterCategory m ∧
      model_tasks m' = model_tasks m)).
Proof.
  split.
  - intros st fs0 events.
    destruct (run_Inv events (initialModel st) fs0 (initialModel_Inv st))
      as (m & fs & Hrun & Hv & _).
    by exists m, fs.
  - intros env m fs msg m' fs' c Hstep. by eapply step_view.
Qed.

(** C10. The choice "a" of the category menu clears the category filter
    only and the visible list is the filter by the status that stays; the
    choice "a" of the status menu clears both filters.  Both go back to the
    list with the cursor at 0 and leave the store and the files alone. *)
Theorem show_all_asymmetry (env : Env) (m : model) (fs : FS) (k : KeyMsg) :
  KeyMsg_String k = "a" →
  (viewMode m = ModeFilterCategory →
   ∃ m', step env m fs (KeyPress k) = Some (m', fs, CmdNil) ∧
         filterCategory m' = None ∧ filterStatus m' = filterStatus m ∧
         model_tasks m'
         = Filter (store m) (mkFilterOptions (filterStatus m) None) ∧
         viewMode m' = ModeList ∧ cursor m' = 0 ∧ store m' = store m) ∧
  (viewMode m = ModeFilter →
   ∃ m', step env m fs (KeyPress k) = Some (m', fs, CmdNil) ∧
         filterCategory m' = None ∧ filterStatus m' = None ∧
         model_tasks m' = tasks (store m) ∧
         viewMode m' = ModeList ∧ cursor m' = 0 ∧ store m' = store m).
Proof.
  intros Hk. split; intros Hmode; unfold model_Update; rewrite Hmode.
  - unfold updateFilterCategoryMode. rewrite Hk. key_cases.
    eexists. split; [reflexivity|]. by repeat split.
  - unfold updateFilterMode. rewrite Hk. key_cases.
    eexists. split; [reflexivity|]. simpl.
    repeat split. unfold refreshTasks. simpl. apply Filter_no_options.
Qed.

(** C5. In create mode, Enter with a description that is empty once
    trimmed, or with a description and a category that is empty once
    trimmed, goes back to the list, leaves the store and the files as they
    were and says which field is missing; so does, on an empty store, the
    description "Buy milk" with the empty category. *)
Theorem create_validation (env : Env) (m : model) (fs : FS) (k : KeyMsg) :
  viewMode m = ModeCreate →
  key_Type k = KeyEnter →
  (TrimSpace (Value (textInput m)) = "" →
   ∃ m', step env m fs (KeyPress k) = Some (m', fs, CmdNil) ∧
         viewMode m' = ModeList ∧ store m' = store m ∧
         model_tasks m' = model_tasks m ∧
         message m' = "Task creation cancelled - description is required" ∧
         Contains (message m') "description is required" = true) ∧
  (TrimSpace (Value (textInput m)) ≠ "" →
   TrimSpace (Value (categoryInput m)) = "" →
   ∃ m', step env m fs (KeyPress k) = Some (m', fs, CmdNil) ∧
         viewMode m' = ModeList ∧ store m' = store m ∧
         model_tasks m' = model_tasks m ∧
         message m' = "Task creation cancelled - category is required" ∧
         Contains (message m') "category is required" = true) ∧
  (tasks (store m) = [] →
   Value (textInput m) = "Buy milk" → Value (categoryInput m) = "" →
   ∃ m', step env m fs (KeyPress k) = Some (m', fs, CmdNil) ∧
         viewMode m' = ModeList ∧ tasks (store m') = [] ∧
         Contains (message m') "category is required" = true).
Proof.
  intros Hmode Hk. unfold model_Update, updateCreateMode.
  rewrite Hmode, Hk. repeat split.
  - intros ->. key_cases. eexists. split; [reflexivity|]. by repeat split.
  - intros Hd ->. rewrite decide_False by done. key_cases.
    eexists. split; [reflexivity|]. by repeat split.
  - intros Hs -> ->.
    change (TrimSpace "Buy milk") with "Buy milk".
    change (TrimSpace "") with "". key_cases.
    eexists. split; [reflexivity|]. by repeat split.
Qed.

(** C7. In the category menu the key of the number [d] selects the
    category at place [d], counted from 1, of the enumeration that
    GetCategories makes of the store at that moment; the enumeration lists
    each category in use once; a number outside 1..count leaves the mode,
    the filters and the visible list as they were. *)
Theorem category_selection_guard (env : Env) (m : model) (fs : FS)
    (k : KeyMsg) (d : Z) :
  viewMode m = ModeFilterCategory →
  0 ≤ d ≤ 9 →
  KeyMsg_String k = digitKey d →
  let categories := GetCategories env (store m) in
  let count := Z.of_nat (length categories) in
  NoDup categories ∧
  (∀ c, c ∈ categories ↔
        c ≠ "" ∧ ∃ t, t ∈ tasks (store m) ∧ Category t = c) ∧
  (1 ≤ d ≤ count →
   ∃ c m', categories !! Z.to_nat (d - 1) = Some c ∧
     step env m fs (KeyPress k) = Some (m', fs, CmdNil) ∧
     filterCategory m' = Some c ∧ filterStatus m' = filterStatus m ∧
     model_tasks m'
     = Filter (store m) (mkFilterOptions (filterStatus m) (Some c)) ∧
     viewMode m' = ModeList ∧ cursor m' = 0 ∧ store m' = store m) ∧
  (¬ (1 ≤ d ≤ count) →
   step env m fs (KeyPress k) = Some (m, fs, CmdNil)).
Proof.
  intros Hmode Hd Hk categories count.
  destruct (GetCategories_spec env (store m)) as (Hnd & _ & Hin).
  split; [done|]. split; [done|].
  unfold model_Update. rewrite Hmode.
  exact (updateFilterCategoryMode_digit env m fs k d Hd Hk).
Qed.

(** Outside the list mode no handler panics, whatever the cursor. *)
Lemma step_total_form env m fs msg :
  viewMode m ≠ ModeList → is_Some (step env m fs msg).
Proof.
  intros Hmode. destruct (step env m fs msg) as [r|] eqn:H; [by eexists|].
  exfalso. unfold_handlers H.
  destruct msg as [k|tag]; [destruct (viewMode m) eqn:Hm|]; [done|..].
  all: handler_cases H.
  match goal with
  | Hl : _ !! _ = None, Hb : (_ <? _) = true, Hr : _ && _ = true |- _ =>
      apply lookup_ge_None_1 in Hl; apply Z.ltb_lt in Hb;
      apply andb_true_iff in Hr as [Hr _]; apply Z.leb_le in Hr;
      unfold TaskCategory in *; lia
  end.
Qed.

(** Where a handler that returns leaves the mode. *)
Lemma step_mode env m fs msg m' fs' c :
  viewMode m ≠ ModeList →
  step env m fs msg = Some (m', fs', c) →
  viewMode m' = ModeList ∨ viewMode m' = viewMode m ∨
  (viewMode m = ModeFilter ∧ viewMode m' = ModeFilterCategory ∧
   ∃ k, msg = KeyPress k ∧ KeyMsg_String k = "c").
Proof.
  intros Hmode H. unfold_handlers H.
  destruct msg as [k|tag]; [destruct (viewMode m) eqn:Hm|]; [done|..].
  all: handler_cases H.
  all: repeat case_match; simplify_eq; simpl.
  all: first [ by left | by right; left | right; right; by eauto ].
Qed.

(** The key of one byte between '1' and '9' is the key of a digit. *)
Lemma digitKey_of_code c :
  49 ≤ Z.of_nat (nat_of_ascii c) ≤ 57 →
  String c "" = digitKey (Z.of_nat (nat_of_ascii c) - 48).
Proof.
  intros Hc. unfold digitKey. f_equal.
  replace (Z.to_nat (48 + (Z.of_nat (nat_of_ascii c) - 48)))
    with (nat_of_ascii c) by lia.
  by rewrite ascii_nat_embedding.
Qed.

(** Outside the list mode, a key that carries neither intent leaves the
    mode as it is, but for the key "c" of the status menu; and so does
    every message that is not a key. *)
Lemma step_mode_other env m fs msg m' fs' c :
  viewMode m ≠ ModeList →
  step env m fs msg = Some (m', fs', c) →
  match msg with
  | KeyPress k =>
      (viewMode m = ModeFilter → KeyMsg_String k = "c" →
       viewMode m' = ModeFilterCategory) ∧
      (¬ cancelIntent (viewMode m) k →
       ¬ confirmIntent (viewMode m) (GetCategories env (store m)) k →
       ¬ (viewMode m = ModeFilter ∧ KeyMsg_String k = "c") →
       viewMode m' = viewMode m)
  | OtherMsg _ => viewMode m' = viewMode m
  end.
Proof.
  intros Hmode H. unfold model_Update in H.
  destruct msg as [k|tag]; [|by handler_cases H].
  destruct (viewMode m) eqn:Hm; [done|..]; simpl.
  - split; [done|]. intros Hcancel Hconfirm _.
    unfold updateCreateMode, forwardKey, switchInput in H.
    handler_cases H; done.
  - split; [done|]. intros Hcancel Hconfirm _.
    unfold updateEditMode, forwardKey, switchInput in H.
    handler_cases H; done.
  - unfold updateFilterMode, applyStatusFilter in H. split.
    + intros _ Hk. rewrite Hk in H. handler_cases H; done.
    + intros Hcancel Hconfirm Hc. handler_cases H; try done.
      all: exfalso; first [ by apply Hc | apply Hconfirm; by eauto ].
  - split; [done|]. intros Hcancel Hconfirm _.
    unfold updateFilterCategoryMode in H.
    handler_cases H; try done.
    all: exfalso; apply Hconfirm; first [ by left | right ].
    match goal with
    | Hr : (49 <=? Z.of_nat (nat_of_ascii ?a)) && _ = true,
      Hl : (_ <? _) = true |- _ =>
        apply andb_true_iff in Hr as [Hlo%Z.leb_le Hhi%Z.leb_le];
        apply Z.ltb_lt in Hl;
        exists (Z.of_nat (nat_of_ascii a) - 48);
        split; [lia|]; split; [unfold TaskCategory in *; lia|];
        by apply digitKey_of_code
    end.
Qed.

(** C6 (amended). From a mode that is not the list, cancelling and
    confirming lead to the list in the one step that handles the key; the
    key "c" of the status menu opens the category menu; every other key and
    every message that is not a key leave the mode as it is.  So a step
    leaves the mode as it is or leads to the list, but for that key "c". *)
Theorem mode_completeness (env : Env) (m : model) (fs : FS) :
  viewMode m ≠ ModeList →
  (∀ k, ∃ m' fs' c,
     step env m fs (KeyPress k) = Some (m', fs', c) ∧
     (cancelIntent (viewMode m) k → viewMode m' = ModeList) ∧
     (confirmIntent (viewMode m) (GetCategories env (store m)) k →
      viewMode m' = ModeList) ∧
     (viewMode m = ModeFilter → KeyMsg_String k = "c" →
      viewMode m' = ModeFilterCategory) ∧
     (¬ cancelIntent (viewMode m) k →
      ¬ confirmIntent (viewMode m) (GetCategories env (store m)) k →
      ¬ (viewMode m = ModeFilter ∧ KeyMsg_String k = "c") →
      viewMode m' = viewMode m)) ∧
  (∀ tag, ∃ m' fs' c,
     step env m fs (OtherMsg tag) = Some (m', fs', c) ∧
     viewMode m' = viewMode m) ∧
  (∀ msg m' fs' c,
     step env m fs msg = Some (m', fs', c) →
     viewMode m' = ModeList ∨ viewMode m' = viewMode m ∨
     (viewMode m = ModeFilter ∧ viewMode m' = ModeFilterCategory ∧
      ∃ k, msg = KeyPress k ∧ KeyMsg_String k = "c")).
Proof.
  intros Hmode.
  split; [|split; [|intros msg m' fs' c; by apply step_mode]].
  2: { intros tag.
       destruct (step_total_form env m fs (OtherMsg tag) Hmode)
         as [[[m' fs'] c] H].
       exists m', fs', c. split; [done|].
       exact (step_mode_other env m fs (OtherMsg tag) m' fs' c Hmode H). }
  intros k.
  destruct (step_total_form env m fs (KeyPress k) Hmode)
    as [[[m' fs'] c] H].
  exists m', fs', c. split; [done|].
  pose proof (step_mode_other env m fs (KeyPress k) m' fs' c Hmode H)
    as [Hopen Hother].
  cut ((cancelIntent (viewMode m) k → viewMode m' = ModeList) ∧
       (confirmIntent (viewMode m) (GetCategories env (store m)) k →
        viewMode m' = ModeList)).
  { intros [Hcancel Hconfirm]. by repeat split. }
  clear Hopen Hother.
  unfold model_Update in H.
  destruct (viewMode m) eqn:Hm; [done|..]; simpl.
  - unfold updateCreateMode, forwardKey in H.
    split; intros Hk; rewrite Hk in H; handler_cases H; done.
  - unfold updateEditMode, forwardKey in H.
    split; intros Hk; rewrite Hk in H; handler_cases H; done.
  - unfold updateFilterMode, applyStatusFilter in H.
    split; [intros Hk|intros [Hk|[Hk|[Hk|Hk]]]]; rewrite Hk in H;
      handler_cases H; done.
  - split; [intros Hk|intros [Hk|(d & Hd & Hcount & Hk)]].
    + unfold updateFilterCategoryMode in H. rewrite Hk in H.
      handler_cases H; done.
    + unfold updateFilterCategoryMode in H. rewrite Hk in H.
      handler_cases H; done.
    + destruct (updateFilterCategoryMode_digit env m fs k d) as [Hsel _];
        [lia|done|].
      destruct Hsel as (cat & m1 & _ & Hstep & _ & _ & _ & Hlist & _);
        [lia|].
      rewrite Hstep in H. by simplify_eq.
Qed.

Lemma down_step env m fs k :
  viewMode m = ModeList → isDown k →
  step env m fs (KeyPress k)
  = Some (if cursor m <? len_tasks m - 1
          then with_cursor (cursor m + 1) m else m, fs, CmdNil).
Proof.
  intros Hmode Hk. unfold model_Update, updateListMode. rewrite Hmode.
  destruct Hk as [-> | ->]; by key_cases.
Qed.

Lemma up_step env m fs k :
  viewMode m = ModeList → isUp k →
  step env m fs (KeyPress k)
  = Some (if 0 <? cursor m then with_cursor (cursor m - 1) m else m,
          fs, CmdNil).
Proof.
  intros Hmode Hk. unfold model_Update, updateListMode. rewrite Hmode.
  destruct Hk as [-> | ->]; by key_cases.
Qed.

(** Any number of moves down: the cursor goes up to the last row and no
    further, and stays where it is when it is there or beyond. *)
Lemma downs_run fs (moves : list (Env * KeyMsg)) : ∀ m,
  viewMode m = ModeList →
  Forall (fun ek => isDown ek.2) moves →
  ∃ m', runFrom (keyEvents moves) m fs = Some (m', fs) ∧
        viewMode m' = ModeList ∧ model_tasks m' = model_tasks m ∧
        cursor m'
        = Z.max (cursor m)
            (Z.min (cursor m + Z.of_nat (length moves)) (len_tasks m - 1)).
Proof.
  induction moves as [|[env k] moves IH]; intros m Hmode Hall.
  - exists m. repeat split; [done|]. simpl. lia.
  - apply Forall_cons in Hall as [Hk Hall]. simpl in Hk.
    cbn [keyEvents map run fst snd]. rewrite down_step by done.
    fold (keyEvents moves). cbn [mbind option_bind length].
    destruct (Z.ltb_spec (cursor m) (len_tasks m - 1)) as [Hlt|Hge].
    + destruct (IH (with_cursor (cursor m + 1) m) Hmode Hall)
        as (m' & -> & Hm' & Ht & Hc).
      exists m'. repeat split; [done..|].
      rewrite Hc. unfold len_tasks in *. simpl. lia.
    + destruct (IH m Hmode Hall) as (m' & -> & Hm' & Ht & Hc).
      exists m'. repeat split; [done..|]. rewrite Hc. lia.
Qed.

(** Any number of moves up, from a cursor that is not negative: the cursor
    goes down to 0 and no further. *)
Lemma ups_run fs (moves : list (Env * KeyMsg)) : ∀ m,
  viewMode m = ModeList → 0 ≤ cursor m →
  Forall (fun ek => isUp ek.2) moves →
  ∃ m', runFrom (keyEvents moves) m fs = Some (m', fs) ∧
        viewMode m' = ModeList ∧ model_tasks m' = model_tasks m ∧
        cursor m' = Z.max 0 (cursor m - Z.of_nat (length moves)).
Proof.
  induction moves as [|[env k] moves IH]; intros m Hmode Hpos Hall.
  - exists m. repeat split; [done|]. simpl. lia.
  - apply Forall_cons in Hall as [Hk Hall]. simpl in Hk.
    cbn [keyEvents map run fst snd]. rewrite up_step by done.
    fold (keyEvents moves). cbn [mbind option_bind length].
    destruct (Z.ltb_spec 0 (cursor m)) as [Hlt|Hge].
    + destruct (IH (with_cursor (cursor m - 1) m) Hmode) as
        (m' & -> & Hm' & Ht & Hc); [simpl; lia|done|].
      exists m'. repeat split; [done..|]. rewrite Hc. simpl. lia.
    + destruct (IH m Hmode Hpos Hall) as (m' & -> & Hm' & Ht & Hc).
      exists m'. repeat split; [done..|]. rewrite Hc. lia.
Qed.

(** A state that the event loop reaches satisfies the invariant. *)
Lemma reached_Inv st fs0 events m fs :
  runFrom events (initialModel st) fs0 = Some (m, fs) → Inv m.
Proof.
  intros Hrun.
  destruct (run_Inv events (initialModel st) fs0 (initialModel_Inv st))
    as (m1 & fs1 & Hrun1 & HI).
  rewrite Hrun in Hrun1. by simplify_eq.
Qed.

(** C3 (amended). In a list-mode state that the event loop reaches, any
    number of moves down leaves the visible list as it is and brings the
    cursor to the last row at most: a cursor below the number of visible
    tasks stays below it, and a cursor on the last row, or on an empty
    list, stays where it is.  Any number of moves up brings the cursor to 0
    at most and never below.  No move wraps around. *)
Theorem cursor_movement_bounds (st : TaskStore) (fs0 : FS)
    (events : list (Env * Msg)) (m : model) (fs : FS)
    (moves : list (Env * KeyMsg)) :
  runFrom events (initialModel st) fs0 = Some (m, fs) →
  viewMode m = ModeList →
  (Forall (fun ek => isDown ek.2) moves →
   ∃ m', runFrom (keyEvents moves) m fs = Some (m', fs) ∧
         model_tasks m' = model_tasks m ∧
         cursor m'
         = Z.max (cursor m)
             (Z.min (cursor m + Z.of_nat (length moves)) (len_tasks m - 1)) ∧
         (cursor m < len_tasks m → cursor m' < len_tasks m') ∧
         (len_tasks m - 1 ≤ cursor m → cursor m' = cursor m) ∧
         cursor m ≤ cursor m') ∧
  (Forall (fun ek => isUp ek.2) moves →
   ∃ m', runFrom (keyEvents moves) m fs = Some (m', fs) ∧
         model_tasks m' = model_tasks m ∧
         cursor m' = Z.max 0 (cursor m - Z.of_nat (length moves)) ∧
         0 ≤ cursor m' ∧ cursor m' ≤ cursor m ∧
         (cursor m = 0 → cursor m' = 0)).
Proof.
  intros Hrun Hmode.
  destruct (reached_Inv _ _ _ _ _ Hrun) as [_ Hpos].
  split; intros Hall.
  - destruct (downs_run fs moves m Hmode Hall) as (m' & Hr & _ & Ht & Hc).
    exists m'. split; [done|]. split; [done|]. split; [done|].
    unfold len_tasks in *. rewrite Ht. lia.
  - destruct (ups_run fs moves m Hmode Hpos Hall)
      as (m' & Hr & _ & Ht & Hc).
    exists m'. split; [done|]. split; [done|]. split; [done|]. lia.
Qed.

(** The case "x" of updateListMode with a task under the cursor. *)
Lemma delete_step env m fs k task :
  viewMode m = ModeList → KeyMsg_String k = "x" →
  hasCurrentTask m = true → getCurrentTask m = Some task →
  ∃ txt,
    let D := Delete marshalIndent env (ID task) (store m) fs in
    let m1 := refreshTasks (with_message txt (with_store D.1.1 m)) in
    step env m fs (KeyPress k)
    = Some (if (len_tasks m1 <=? cursor m1) && (0 <? cursor m1)
            then with_cursor (cursor m1 - 1) m1 else m1, D.1.2, CmdNil).
Proof.
  intros Hmode Hk Hhas Hget.
  unfold model_Update, updateListMode. rewrite Hmode, Hk. key_cases.
  rewrite Hhas, Hget. cbn [mbind option_bind].
  destruct (Delete marshalIndent env (ID task) (store m) fs)
    as [[s' fs'] [e|]]; eexists; reflexivity.
Qed.

(** C9 (amended). In a list-mode state that the event loop reaches, with a
    task under the cursor, the key "x" deletes from the store the first
    task with the id of that task and re-derives the visible list, which
    loses one row at most; the cursor goes down by one exactly when it is
    above 0 and past the end of the new list, so that it ends on a row of
    the new list, or at 0 on an empty list.  When the ids of the store are
    pairwise distinct and the cursor was on the last row, that row is gone
    and the cursor is one less, or still 0 when it was 0. *)
Theorem delete_cursor_clamp (st : TaskStore) (fs0 : FS)
    (events : list (Env * Msg)) (m : model) (fs : FS) (env : Env)
    (k : KeyMsg) :
  runFrom events (initialModel st) fs0 = Some (m, fs) →
  viewMode m = ModeList →
  KeyMsg_String k = "x" →
  hasCurrentTask m = true →
  ∃ task m' fs',
    getCurrentTask m = Some task ∧
    step env m fs (KeyPress k) = Some (m', fs', CmdNil) ∧
    store m' = (Delete marshalIndent env (ID task) (store m) fs).1.1 ∧
    model_tasks m' = Filter (store m') (filterOptions m) ∧
    len_tasks m - 1 ≤ len_tasks m' ≤ len_tasks m ∧
    cursor m' = (if (len_tasks m' <=? cursor m) && (0 <? cursor m)
                 then cursor m - 1 else cursor m) ∧
    0 ≤ cursor m' ∧
    (cursor m' < len_tasks m' ∨ (cursor m' = 0 ∧ len_tasks m' = 0)) ∧
    (NoDup (ID <$> tasks (store m)) → cursor m = len_tasks m - 1 →
     len_tasks m' = len_tasks m - 1 ∧ cursor m' = Z.max 0 (cursor m - 1)).
Proof.
  intros Hrun Hmode Hk Hhas.
  destruct (reached_Inv _ _ _ _ _ Hrun) as [Hv Hpos].
  destruct (getCurrentTask_Some m Hhas Hpos) as (task & Hget & Hlook).
  assert (task ∈ tasks (store m) ∧ matches (filterOptions m) task)
    as [Htask Hmatch].
  { apply list_elem_of_lookup_2 in Hlook. rewrite Hv, Filter_filter in Hlook.
    apply list_elem_of_filter in Hlook. tauto. }
  destruct (Delete_found marshalIndent env (ID task) (store m) fs)
    as (n & t & Hn & Ht & Hdel).
  { apply list_elem_of_fmap. by exists task. }
  destruct (delete_step env m fs k task Hmode Hk Hhas Hget) as [txt Hstep].
  cbv zeta in Hstep. rewrite Hstep. clear Hstep.
  set (D := Delete marshalIndent env (ID task) (store m) fs) in *.
  set (m1 := refreshTasks (with_message txt (with_store D.1.1 m))).
  assert (Hc1 : cursor m1 = cursor m) by reflexivity.
  assert (Hs1 : store m1 = D.1.1) by reflexivity.
  assert (Ht1 : model_tasks m1 = Filter D.1.1 (filterOptions m))
    by reflexivity.
  assert (Hl1 : len_tasks m1
                = len_tasks m
                  - (if decide (matches (filterOptions m) t) then 1 else 0)).
  { unfold len_tasks. rewrite Ht1, Hv, Hdel, Filter_set_tasks, Filter_filter.
    rewrite (filter_remove_length _ _ n t Hn). case_decide; lia. }
  assert (Hnd : NoDup (ID <$> tasks (store m)) →
                len_tasks m1 = len_tasks m - 1).
  { intros Hnodup. assert (t = task) as ->.
    { eapply NoDup_fmap_eq;
        [exact Hnodup|by eapply list_elem_of_lookup_2|done|done]. }
    rewrite Hl1. by rewrite decide_True. }
  assert (Hhas' : 0 < len_tasks m ∧ cursor m < len_tasks m).
  { unfold hasCurrentTask in Hhas.
    by apply andb_true_iff in Hhas as [?%Z.ltb_lt ?%Z.ltb_lt]. }
  assert (Hrange : len_tasks m - 1 ≤ len_tasks m1 ≤ len_tasks m)
    by (rewrite Hl1; case_decide; lia).
  exists task. eexists. exists D.1.2. split; [done|]. split; [reflexivity|].
  rewrite Hc1.
  destruct ((len_tasks m1 <=? cursor m) && (0 <? cursor m)) eqn:Hclamp.
  - pose proof Hclamp as Hcond.
    apply andb_true_iff in Hclamp as [Hle%Z.leb_le Hlt%Z.ltb_lt].
    change (len_tasks (with_cursor (cursor m - 1) m1)) with (len_tasks m1).
    change (cursor (with_cursor (cursor m - 1) m1)) with (cursor m - 1).
    rewrite Hcond.
    do 6 (split; [first [done | reflexivity | lia]|]).
    intros Hnodup Hlast. specialize (Hnd Hnodup). lia.
  - rewrite Hclamp.
    apply andb_false_iff in Hclamp as [Hgt%Z.leb_gt|Hge%Z.ltb_ge].
    + do 6 (split; [first [done | reflexivity | lia]|]).
      intros Hnodup Hlast. specialize (Hnd Hnodup). lia.
    + do 6 (split; [first [done | reflexivity | lia]|]).
      intros Hnodup Hlast. specialize (Hnd Hnodup). lia.
Qed.

End ControllerProperties.

(** * The properties on concrete inputs *)

Lemma missing_id_noop_witness :
  UpdateStatus exampleMarshal env0 "absent" StatusDone oneTaskStore ∅
  = (oneTaskStore, ∅, None) ∧
  UpdateDescription exampleMarshal env0 "absent" "Buy bread" oneTaskStore ∅
  = (oneTaskStore, ∅, None) ∧
  UpdateCategory exampleMarshal env0 "absent" "home" oneTaskStore ∅
  = (oneTaskStore, ∅, None) ∧
  Update exampleMarshal env0 "absent" "Buy bread" "home" oneTaskStore ∅
  = (oneTaskStore, ∅, None) ∧
  Delete exampleMarshal env0 "absent" oneTaskStore ∅ = (oneTaskStore, ∅, None).
Proof.
  apply (missing_id_noop exampleMarshal env0 "absent" oneTaskStore ∅
           StatusDone "Buy bread" "home").
  simpl. intros [H|H]%elem_of_cons; [discriminate H|].
  by apply not_elem_of_nil in H.
Defined.

Lemma Add_same_microsecond_witness :
  let '(s1, fs1, _) :=
    Add exampleMarshal exampleFormat (exampleEnv 5000 []) "Buy milk" "errands"
        emptyStore ∅ in
  let '(s2, _, _) :=
    Add exampleMarshal exampleFormat (exampleEnv 5400 []) "Call home"
        "personal" s1 fs1 in
  length (tasks s2) = 2%nat ∧ ¬ NoDup (ID <$> tasks s2).
Proof.
  apply (Add_same_microsecond exampleMarshal exampleFormat
           (exampleEnv 5000 []) (exampleEnv 5400 []) "Buy milk" "Call home"
           "errands" "personal" emptyStore ∅).
  reflexivity.
Defined.

Lemma create_validation_witness :
  ∃ m', exampleStep env0 buyMilkForm ∅ (KeyPress keyEnter)
        = Some (m', ∅, CmdNil) ∧
        viewMode m' = ModeList ∧ tasks (store m') = [] ∧
        Contains (message m') "category is required" = true.
Proof.
  apply (create_validation exampleMarshal exampleFormat exampleSetValue
           exampleInputUpdate env0 buyMilkForm ∅ keyEnter);
    reflexivity.
Defined.

Lemma show_all_asymmetry_witness :
  (∃ m', exampleStep env0 categoryMenu ∅ (KeyPress keyA)
         = Some (m', ∅, CmdNil) ∧
         filterCategory m' = None ∧
         filterStatus m' = filterStatus categoryMenu ∧
         model_tasks m'
         = Filter (store categoryMenu)
             (mkFilterOptions (filterStatus categoryMenu) None) ∧
         viewMode m' = ModeList ∧ cursor m' = 0 ∧
         store m' = store categoryMenu) ∧
  (∃ m', exampleStep env0 statusMenu ∅ (KeyPress keyA)
         = Some (m', ∅, CmdNil) ∧
         filterCategory m' = None ∧ filterStatus m' = None ∧
         model_tasks m' = tasks (store statusMenu) ∧
         viewMode m' = ModeList ∧ cursor m' = 0 ∧
         store m' = store statusMenu).
Proof.
  split.
  - apply (show_all_asymmetry exampleMarshal exampleFormat exampleSetValue
             exampleInputUpdate env0 categoryMenu ∅ keyA); reflexivity.
  - apply (show_all_asymmetry exampleMarshal exampleFormat exampleSetValue
             exampleInputUpdate env0 statusMenu ∅ keyA); reflexivity.
Defined.

Lemma category_selection_guard_witness :
  (∃ c m', GetCategories env0 (store categoryMenu) !! 0%nat = Some c ∧
     exampleStep env0 categoryMenu ∅ (KeyPress (runeKey "1"))
     = Some (m', ∅, CmdNil) ∧
     filterCategory m' = Some c ∧
     filterStatus m' = filterStatus categoryMenu ∧
     model_tasks m'
     = Filter (store categoryMenu)
         (mkFilterOptions (filterStatus categoryMenu) (Some c)) ∧
     viewMode m' = ModeList ∧ cursor m' = 0 ∧
     store m' = store categoryMenu) ∧
  exampleStep env0 categoryMenu ∅ (KeyPress (runeKey "3"))
  = Some (categoryMenu, ∅, CmdNil).
Proof.
  split.
  - apply (category_selection_guard exampleMarshal exampleFormat
             exampleSetValue exampleInputUpdate env0 categoryMenu ∅
             (runeKey "1") 1); [reflexivity|lia|reflexivity|].
    vm_compute. split; discriminate.
  - apply (category_selection_guard exampleMarshal exampleFormat
             exampleSetValue exampleInputUpdate env0 categoryMenu ∅
             (runeKey "3") 3); [reflexivity|lia|reflexivity|].
    vm_compute. intros [_ H]. apply H. reflexivity.
Defined.

Lemma mode_completeness_witness :
  (∃ m' fs' c,
     exampleStep env0 statusMenu ∅ (KeyPress (specialKey KeyEsc))
     = Some (m', fs', c) ∧
     (cancelIntent (viewMode statusMenu) (specialKey KeyEsc) →
      viewMode m' = ModeList) ∧
     (confirmIntent (viewMode statusMenu)
        (GetCategories env0 (store statusMenu)) (specialKey KeyEsc) →
      viewMode m' = ModeList) ∧
     (viewMode statusMenu = ModeFilter →
      KeyMsg_String (specialKey KeyEsc) = "c" →
      viewMode m' = ModeFilterCategory) ∧
     (¬ cancelIntent (viewMode statusMenu) (specialKey KeyEsc) →
      ¬ confirmIntent (viewMode statusMenu)
          (GetCategories env0 (store statusMenu)) (specialKey KeyEsc) →
      ¬ (viewMode statusMenu = ModeFilter ∧
         KeyMsg_String (specialKey KeyEsc) = "c") →
      viewMode m' = viewMode statusMenu)) ∧
  (∃ m' fs' c,
     exampleStep env0 statusMenu ∅ (KeyPress (runeKey "z"))
     = Some (m', fs', c) ∧ viewMode m' = ModeFilter).
Proof.
  split.
  - apply (mode_completeness exampleMarshal exampleFormat exampleSetValue
             exampleInputUpdate env0 statusMenu ∅).
    discriminate.
  - destruct (mode_completeness exampleMarshal exampleFormat exampleSetValue
                exampleInputUpdate env0 statusMenu ∅) as [Hkeys _];
      [discriminate|].
    destruct (Hkeys (runeKey "z"))
      as (m' & fs' & c & Hstep & _ & _ & _ & Hother).
    exists m', fs', c. split; [exact Hstep|].
    apply Hother; vm_compute; intuition discriminate.
Defined.

Lemma cursor_movement_bounds_witness :
  (∃ m', exampleRun (keyEvents [(env0, keyJ); (env0, keyJ); (env0, keyJ)])
           (initialModel threeTaskStore) ∅ = Some (m', ∅) ∧
         model_tasks m' = model_tasks (initialModel threeTaskStore) ∧
         cursor m' = 2) ∧
  (∃ m', exampleRun (keyEvents [(env0, keyK); (env0, keyK)])
           (initialModel threeTaskStore) ∅ = Some (m', ∅) ∧
         model_tasks m' = model_tasks (initialModel threeTaskStore) ∧
         cursor m' = 0).
Proof.
  split.
  - destruct (cursor_movement_bounds exampleMarshal exampleFormat
                exampleSetValue exampleInputUpdate threeTaskStore ∅ []
                (initialModel threeTaskStore) ∅
                [(env0, keyJ); (env0, keyJ); (env0, keyJ)]
                eq_refl eq_refl) as [Hdown _].
    destruct Hdown as (m' & Hrun & Htasks & Hcursor & _).
    + repeat (constructor; [right; reflexivity|]). constructor.
    + exists m'. split; [exact Hrun|]. split; [exact Htasks|].
      rewrite Hcursor. reflexivity.
  - destruct (cursor_movement_bounds exampleMarshal exampleFormat
                exampleSetValue exampleInputUpdate threeTaskStore ∅ []
                (initialModel threeTaskStore) ∅
                [(env0, keyK); (env0, keyK)]
                eq_refl eq_refl) as [_ Hup].
    destruct Hup as (m' & Hrun & Htasks & Hcursor & _).
    + repeat (constructor; [right; reflexivity|]). constructor.
    + exists m'. split; [exact Hrun|]. split; [exact Htasks|].
      rewrite Hcursor. reflexivity.
Defined.

Lemma delete_cursor_clamp_witness :
  ∃ task m' fs',
    getCurrentTask lastRow = Some task ∧
    exampleStep env0 lastRow ∅ (KeyPress keyX) = Some (m', fs', CmdNil) ∧
    len_tasks m' = 2 ∧ cursor m' = 1.
Proof.
  destruct (delete_cursor_clamp exampleMarshal exampleFormat exampleSetValue
              exampleInputUpdate threeTaskStore ∅
              [(env0, KeyPress keyJ); (env0, KeyPress keyJ)] lastRow ∅
              env0 keyX eq_refl eq_refl eq_refl eq_refl)
    as (task & m' & fs' & Hget & Hstep & _ & _ & _ & _ & _ & _ & Hlast).
  exists task, m', fs'. split; [exact Hget|]. split; [exact Hstep|].
  apply Hlast; [|reflexivity].
  vm_compute. repeat constructor; intros H;
    repeat (apply elem_of_cons in H as [H|H]; [discriminate H|]);
    by apply not_elem_of_nil in H.
Defined.

(** C3, as the specification states it, fails on the empty list: after a
    move down the cursor is 0 and the number of visible tasks is 0. *)
Lemma down_on_empty_list :
  ∃ m', exampleRun [(env0, KeyPress keyJ)] (initialModel emptyStore) ∅
        = Some (m', ∅) ∧
        viewMode m' = ModeList ∧ cursor m' = 0 ∧ len_tasks m' = 0 ∧
        ¬ (cursor m' < len_tasks m').
Proof.
  eexists. split; [vm_compute; reflexivity|].
  repeat split. vm_compute. discriminate.
Qed.

(** C6, as the specification states it, fails in the status menu: the key
    "c" leads to the category menu, which is not the list. *)
Lemma status_menu_opens_category_menu :
  ∃ m1 m2,
    exampleRun [(env0, KeyPress (runeKey "f"))] (initialModel emptyStore) ∅
    = Some (m1, ∅) ∧
    viewMode m1 = ModeFilter ∧
    exampleStep env0 m1 ∅ (KeyPress (runeKey "c")) = Some (m2, ∅, CmdNil) ∧
    viewMode m2 = ModeFilterCategory ∧
    viewMode m2 ≠ ModeList ∧ viewMode m2 ≠ viewMode m1.
Proof.
  eexists. eexists. split; [vm_compute; reflexivity|].
  split; [reflexivity|]. split; [vm_compute; reflexivity|].
  repeat split; discriminate.
Qed.

(** C9, as the specification states it, fails on a list of one row: the
    row under the cursor, the last one, is deleted and the cursor stays at
    0 instead of going down by one. *)
Lemma delete_only_row :
  ∃ m' fs',
    exampleRun [(env0, KeyPress keyX)] (initialModel oneTaskStore) ∅
    = Some (m', fs') ∧
    cursor (initialModel oneTaskStore)
    = len_tasks (initialModel oneTaskStore) - 1 ∧
    tasks (store m') = [] ∧ model_tasks m' = [] ∧
    cursor m' = 0 ∧
    cursor m' ≠ cursor (initialModel oneTaskStore) - 1.
Proof.
  eexists. eexists. split; [vm_compute; reflexivity|].
  repeat split. discriminate.
Qed.

(** A status change under an active status filter takes the row under the
    cursor away without moving the cursor: with two pending tasks shown and
    the cursor on the second, marking it done leaves one row and the cursor
    at 1, past the end; a move down then leaves it there. *)
Lemma cursor_past_end_after_status_change :
  ∃ m' fs',
    exampleRun [(env0, KeyPress (runeKey "f")); (env0, KeyPress (runeKey "p"));
                (env0, KeyPress keyJ); (env0, KeyPress (runeKey "d"));
                (env0, KeyPress keyJ)]
      (initialModel threeTaskStore) ∅ = Some (m', fs') ∧
    viewMode m' = ModeList ∧ len_tasks m' = 1 ∧ cursor m' = 1.
Proof.
  eexists. eexists. split; [vm_compute; reflexivity|]. by repeat split.
Qed.

(** * Further properties of the store *)

(** What the search loop of findTaskIndex returns, started at index [i]. *)
Lemma findTaskIndex_from_first id ts : ∀ i,
  ((id ∉ ID <$> ts) ∧ findTaskIndex_from i ts id = -1) ∨
  ∃ (n : nat) l1 t l2,
    ts = l1 ++ t :: l2 ∧ length l1 = n ∧ (id ∉ ID <$> l1) ∧ ID t = id ∧
    findTaskIndex_from i ts id = i + Z.of_nat n.
Proof.
  induction ts as [|t ts IH]; intros i; simpl.
  - left. split; [apply not_elem_of_nil|done].
  - case_decide as Ht.
    + right. exists 0%nat, [], t, ts. repeat split; [apply not_elem_of_nil|done|lia].
    + destruct (IH (i + 1)) as [[Habs Hres]|(n & l1 & t' & l2 & -> & Hn & Habs & Ht' & Hres)].
      * left. split; [|done]. apply not_elem_of_cons. split; [congruence|done].
      * right. exists (S n), (t :: l1), t', l2.
        repeat split; [simpl; lia| |done|lia].
        simpl. apply not_elem_of_cons. split; [congruence|done].
Qed.

(** The index that findTaskIndex returns for an id that some task has. *)
Lemma findTaskIndex_found s id :
  id ∈ ID <$> tasks s →
  ∃ l1 t l2, tasks s = l1 ++ t :: l2 ∧ (id ∉ ID <$> l1) ∧ ID t = id ∧
    findTaskIndex s id = Z.of_nat (length l1) ∧
    0 ≤ findTaskIndex s id < Z.of_nat (length (tasks s)).
Proof.
  intros Hin. unfold findTaskIndex.
  destruct (findTaskIndex_from_first id (tasks s) 0)
    as [[Habs Hres]|(n & l1 & t & l2 & Hts & Hn & Habs & Ht & Hres)].
  - by destruct Habs.
  - exists l1, t, l2. rewrite Hres, Hts, length_app. simpl.
    repeat split; try done; lia.
Qed.

(** X1. findTaskIndex returns -1 exactly when no task has the id; otherwise it
    returns the index of the first task that has it. *)
Theorem findTaskIndex_first_match (s : TaskStore) (id : string) :
  (findTaskIndex s id = -1 ↔ id ∉ ID <$> tasks s) ∧
  (id ∈ ID <$> tasks s →
   ∃ l1 t l2, tasks s = l1 ++ t :: l2 ∧ (id ∉ ID <$> l1) ∧ ID t = id ∧
     findTaskIndex s id = Z.of_nat (length l1) ∧
     0 ≤ findTaskIndex s id < Z.of_nat (length (tasks s))).
Proof.
  unfold findTaskIndex.
  destruct (findTaskIndex_from_first id (tasks s) 0)
    as [[Habs Hres]|(n & l1 & t & l2 & Hts & Hn & Habs & Ht & Hres)].
  - split; [by split|]. intros Hin. by destruct Habs.
  - assert (Hin : id ∈ ID <$> tasks s).
    { rewrite Hts, fmap_app. apply elem_of_app. right. simpl. rewrite Ht. by left. }
    split.
    + split; [intros Heq; lia | intros Hno; by destruct Hno].
    + intros _. exists l1, t, l2. rewrite Hres, Hts, length_app. simpl.
      repeat split; try done; lia.
Qed.

(** The search of findTaskIndex looks at the ids only. *)
Lemma findTaskIndex_from_ids id ts : ∀ ts' i,
  ID <$> ts = ID <$> ts' →
  findTaskIndex_from i ts id = findTaskIndex_from i ts' id.
Proof.
  induction ts as [|t ts IH]; intros [|t' ts'] i Hids; simpl in *;
    try done.
  injection Hids as Ht Hts. rewrite Ht. case_decide; [done|]. by apply IH.
Qed.

(** X9. GetCategories lists each category in use once, whatever the order in
    which the map is ranged over; it is empty exactly when every task has
    the empty category, and a category is listed exactly when filtering by
    it alone gives a task. *)
Theorem GetCategories_distinct (env env' : Env) (s : TaskStore) :
  NoDup (GetCategories env s) ∧
  (∀ c, c ∈ GetCategories env s ↔
        c ≠ "" ∧ ∃ t, t ∈ tasks s ∧ Category t = c) ∧
  GetCategories env s ≡ₚ GetCategories env' s ∧
  (GetCategories env s = [] ↔ ∀ t, t ∈ tasks s → Category t = "") ∧
  (length (GetCategories env s) ≤ length (tasks s))%nat ∧
  (∀ c, c ∈ GetCategories env s ↔
        c ≠ "" ∧ Filter s (mkFilterOptions None (Some c)) ≠ []).
Proof.
  destruct (GetCategories_spec env s) as (Hnd & _ & Hin).
  split; [done|]. split; [done|]. split; [|split; [|split]].
  - rewrite !GetCategories_rangeOrder. by rewrite !rangeOrder_Permutation.
  - split.
    + intros Hnil t Ht. destruct (decide (Category t = "")) as [|Hne]; [done|].
      assert (Category t ∈ GetCategories env s) as Hc
        by (apply Hin; split; [done|by exists t]).
      rewrite Hnil in Hc. by apply not_elem_of_nil in Hc.
    + intros Hall. destruct (GetCategories env s) as [|c l] eqn:Hl; [done|].
      assert (c ∈ c :: l) as Hc by by left.
      apply Hin in Hc as (Hne & t & Ht & Hcat). by rewrite (Hall t Ht) in Hcat.
  - rewrite <- (length_fmap Category (tasks s)).
    apply submseteq_length, NoDup_submseteq; [done|].
    intros c (_ & t & Ht & <-)%Hin. apply list_elem_of_fmap. by exists t.
  - intros c. rewrite Hin, Filter_filter. split; intros [Hne H]; (split; [done|]).
    + destruct H as (t & Ht & Hcat). intros Hnil.
      assert (t ∈ filter (matches (mkFilterOptions None (Some c))) (tasks s))
        as Hf.
      { apply list_elem_of_filter. split; [|done].
        split; [by left|right; simpl; by rewrite Hcat]. }
      rewrite Hnil in Hf. by apply not_elem_of_nil in Hf.
    + destruct (filter _ (tasks s)) as [|t l] eqn:Hf; [done|].
      assert (t ∈ filter (matches (mkFilterOptions None (Some c))) (tasks s))
        as [[_ [Hm|Hm]] Ht]%list_elem_of_filter
        by (rewrite Hf; by left); simpl in Hm; [done|].
      exists t. split; [done|]. congruence.
Qed.

(** X10. Filtering by a status and a category is filtering by the one and then
    by the other, in either order; a filter never returns more tasks than
    the store has, and setting an option never adds a task. *)
Theorem Filter_both (s : TaskStore) (status : TaskStatus)
    (category : TaskCategory) (F : FilterOptions) :
  Filter s (mkFilterOptions (Some status) (Some category))
  = filter (fun t => Category t = category)
      (Filter s (mkFilterOptions (Some status) None)) ∧
  Filter s (mkFilterOptions (Some status) (Some category))
  = filter (fun t => Status t = status)
      (Filter s (mkFilterOptions None (Some category))) ∧
  (length (Filter s F) ≤ length (tasks s))%nat ∧
  Filter s (mkFilterOptions (Some status) (opt_Category F))
    `sublist_of` Filter s (mkFilterOptions None (opt_Category F)) ∧
  Filter s (mkFilterOptions (opt_Status F) (Some category))
    `sublist_of` Filter s (mkFilterOptions (opt_Status F) None).
Proof.
  rewrite !Filter_filter.
  assert (Hext : ∀ (P Q : Task → Prop) `{∀ t, Decision (P t)}
                   `{∀ t, Decision (Q t)} (l : list Task),
            (∀ t, P t ↔ Q t) → filter P l = filter Q l).
  { intros P Q ? ? l HPQ. induction l as [|t l IH]; [done|].
    rewrite !filter_cons, IH.
    destruct (decide (P t)) as [HP|HP], (decide (Q t)) as [HQ|HQ];
      [done|by apply HPQ in HP|by apply HPQ in HQ|done]. }
  assert (Hsub : ∀ (P Q : Task → Prop) `{∀ t, Decision (P t)}
                   `{∀ t, Decision (Q t)} (l : list Task),
            (∀ t, P t → Q t) → filter P l `sublist_of` filter Q l).
  { intros P Q ? ? l HPQ. induction l as [|t l IH]; [done|].
    rewrite !filter_cons.
    destruct (decide (P t)) as [HP|HP], (decide (Q t)) as [HQ|HQ].
    - by apply sublist_skip.
    - by apply HPQ in HP.
    - by apply sublist_cons.
    - done. }
  split; [|split; [|split; [|split]]].
  - rewrite list_filter_filter. apply Hext. intros t. unfold matches. simpl.
    intuition congruence.
  - rewrite list_filter_filter. apply Hext. intros t. unfold matches. simpl.
    intuition congruence.
  - apply length_filter.
  - apply Hsub. intros t [_ Hc]. split; [by left|done].
  - apply Hsub. intros t [Hs _]. split; [done|by left].
Qed.

Section StoreExtra.

Variable marshalIndent : list Task -> string.
Variable formatMicro : Z -> string.

(** The list after [s.tasks[idx]] is replaced, for the index that
    findTaskIndex returns. *)
Lemma updateAt_found env change id s fs :
  id ∈ ID <$> tasks s →
  ∃ l1 t l2, tasks s = l1 ++ t :: l2 ∧ (id ∉ ID <$> l1) ∧ ID t = id ∧
    (updateAt marshalIndent env change id s fs).1.1
    = set_tasks (l1 ++ set_UpdatedAt (clock env 0%nat) (change t) :: l2) s.
Proof.
  intros Hin.
  destruct (findTaskIndex_found s id Hin)
    as (l1 & t & l2 & Hts & Habs & Ht & Hidx & Hrange).
  exists l1, t, l2. repeat split; [done..|].
  unfold updateAt. rewrite decide_True by lia.
  destruct (Save _ _ _ _) as [fs' err]. simpl. f_equal.
  rewrite Hidx, Nat2Z.id, Hts.
  rewrite alter_app_r_alt by lia. by rewrite Nat.sub_diag.
Qed.

(** X2. When a task has the id, each update method changes the first such task
    and only it: the named fields and UpdatedAt are set, the id, the other
    fields and CreatedAt stay, and so do all other tasks and the order. *)
Theorem update_first_match (env : Env) (id : string) (s : TaskStore)
    (fs : FS) (status : TaskStatus) (description : string)
    (category : TaskCategory) :
  id ∈ ID <$> tasks s →
  ∃ l1 t l2, tasks s = l1 ++ t :: l2 ∧ (id ∉ ID <$> l1) ∧ ID t = id ∧
    tasks (UpdateStatus marshalIndent env id status s fs).1.1
    = l1 ++ mkTask (ID t) (Description t) status (Category t) (CreatedAt t)
                   (clock env 0%nat) :: l2 ∧
    tasks (UpdateDescription marshalIndent env id description s fs).1.1
    = l1 ++ mkTask (ID t) description (Status t) (Category t) (CreatedAt t)
                   (clock env 0%nat) :: l2 ∧
    tasks (UpdateCategory marshalIndent env id category s fs).1.1
    = l1 ++ mkTask (ID t) (Description t) (Status t) category (CreatedAt t)
                   (clock env 0%nat) :: l2 ∧
    tasks (Update marshalIndent env id description category s fs).1.1
    = l1 ++ mkTask (ID t) description (Status t) category (CreatedAt t)
                   (clock env 0%nat) :: l2.
Proof.
  intros Hin.
  destruct (findTaskIndex_found s id Hin)
    as (l1 & t & l2 & Hts & Habs & Ht & Hidx & Hrange).
  exists l1, t, l2. split; [done|]. split; [done|]. split; [done|].
  unfold UpdateStatus, UpdateDescription, UpdateCategory, Update, updateAt.
  rewrite !decide_True by lia.
  repeat match goal with
         | |- context [Save ?a ?b ?c ?d] => destruct (Save a b c d) as [? ?]
         end.
  simpl. rewrite Hidx, Nat2Z.id, Hts.
  rewrite !alter_app_r_alt by lia. rewrite Nat.sub_diag. simpl.
  by repeat split.
Qed.

(** X3. Delete removes the first task that has the id and only it; when the
    ids of the store are pairwise distinct no task has the id afterwards,
    and deleting it again changes nothing. *)
Theorem Delete_first_match (env : Env) (id : string) (s : TaskStore)
    (fs : FS) :
  id ∈ ID <$> tasks s →
  ∃ l1 t l2, tasks s = l1 ++ t :: l2 ∧ (id ∉ ID <$> l1) ∧ ID t = id ∧
    tasks (Delete marshalIndent env id s fs).1.1 = l1 ++ l2 ∧
    filepath (Delete marshalIndent env id s fs).1.1 = filepath s ∧
    (NoDup (ID <$> tasks s) →
     (id ∉ ID <$> tasks (Delete marshalIndent env id s fs).1.1) ∧
     ∀ env' fs',
       Delete marshalIndent env' id (Delete marshalIndent env id s fs).1.1 fs'
       = ((Delete marshalIndent env id s fs).1.1, fs', None)).
Proof.
  intros Hin.
  destruct (findTaskIndex_found s id Hin)
    as (l1 & t & l2 & Hts & Habs & Ht & Hidx & Hrange).
  exists l1, t, l2. split; [done|]. split; [done|]. split; [done|].
  assert (Hdel : (Delete marshalIndent env id s fs).1.1
                 = set_tasks (l1 ++ l2) s).
  { unfold Delete. rewrite decide_True by lia.
    destruct (Save _ _ _ _) as [fs1 err]. simpl. f_equal.
    rewrite Hidx. replace (Z.to_nat (Z.of_nat (length l1) + 1))
      with (S (length l1)) by lia.
    rewrite Nat2Z.id, Hts, take_app_length.
    change (l1 ++ t :: l2) with (l1 ++ [t] ++ l2).
    rewrite app_assoc, drop_app_length'; [done|].
    rewrite length_app. simpl. lia. }
  rewrite Hdel. split; [done|]. split; [done|].
  intros Hnd. rewrite Hts, fmap_app, fmap_cons in Hnd.
  apply NoDup_app in Hnd as (_ & _ & [Hl2 _]%NoDup_cons).
  assert (Hgone : id ∉ ID <$> tasks (set_tasks (l1 ++ l2) s)).
  { simpl. rewrite fmap_app. intros [?|?]%elem_of_app; [done|]. congruence. }
  split; [done|]. intros env' fs'.
  unfold Delete, findTaskIndex.
  rewrite findTaskIndex_from_absent by done. by rewrite decide_False by lia.
Qed.

(** X4. No update method changes an id, a creation time, the number of tasks or
    their order, whether the id is found or not. *)
Theorem updates_keep_identity (env : Env) (id : string) (s : TaskStore)
    (fs : FS) (status : TaskStatus) (description : string)
    (category : TaskCategory) :
  let keeps (r : TaskStore * FS * error) :=
    ID <$> tasks r.1.1 = ID <$> tasks s ∧
    CreatedAt <$> tasks r.1.1 = CreatedAt <$> tasks s ∧
    length (tasks r.1.1) = length (tasks s) ∧
    filepath r.1.1 = filepath s in
  keeps (UpdateStatus marshalIndent env id status s fs) ∧
  keeps (UpdateDescription marshalIndent env id description s fs) ∧
  keeps (UpdateCategory marshalIndent env id category s fs) ∧
  keeps (Update marshalIndent env id description category s fs).
Proof.
  assert (Hgen : ∀ change,
            (∀ t, ID (change t) = ID t) →
            (∀ t, CreatedAt (change t) = CreatedAt t) →
            let r := updateAt marshalIndent env change id s fs in
            ID <$> tasks r.1.1 = ID <$> tasks s ∧
            CreatedAt <$> tasks r.1.1 = CreatedAt <$> tasks s ∧
            length (tasks r.1.1) = length (tasks s) ∧
            filepath r.1.1 = filepath s).
  { intros change Hid Hcr. unfold updateAt. case_decide; [|done].
    destruct (Save _ _ _ _) as [fs' err]. simpl.
    split; [|split; [|split; [by rewrite length_alter|done]]].
    - apply list_eq. intros i. rewrite !list_lookup_fmap.
      destruct (decide (i = Z.to_nat (findTaskIndex s id))) as [->|Hne].
      + rewrite list_lookup_alter_eq.
        destruct (tasks s !! _); simpl; [|done]. by rewrite Hid.
      + by rewrite list_lookup_alter_ne.
    - apply list_eq. intros i. rewrite !list_lookup_fmap.
      destruct (decide (i = Z.to_nat (findTaskIndex s id))) as [->|Hne].
      + rewrite list_lookup_alter_eq.
        destruct (tasks s !! _); simpl; [|done]. by rewrite Hcr.
      + by rewrite list_lookup_alter_ne. }
  intros keeps. unfold keeps.
  unfold UpdateStatus, UpdateDescription, UpdateCategory, Update.
  repeat split; apply Hgen; done.
Qed.

(** X5. Pairwise distinct ids stay so under the update methods and Delete;
    under Add they stay so exactly when the generated id is not yet in the
    store. *)
Theorem distinct_ids_kept (env : Env) (id : string) (s : TaskStore)
    (fs : FS) (status : TaskStatus) (description : string)
    (category : TaskCategory) :
  NoDup (ID <$> tasks s) →
  NoDup (ID <$> tasks (UpdateStatus marshalIndent env id status s fs).1.1) ∧
  NoDup (ID <$> tasks
           (UpdateDescription marshalIndent env id description s fs).1.1) ∧
  NoDup (ID <$> tasks
           (UpdateCategory marshalIndent env id category s fs).1.1) ∧
  NoDup (ID <$> tasks
           (Update marshalIndent env id description category s fs).1.1) ∧
  NoDup (ID <$> tasks (Delete marshalIndent env id s fs).1.1) ∧
  (NoDup (ID <$> tasks
            (Add marshalIndent formatMicro env description category s fs).1.1)
   ↔ generateID formatMicro (clock env 0%nat) ∉ ID <$> tasks s).
Proof.
  intros Hnd.
  unfold UpdateStatus, UpdateDescription, UpdateCategory, Update.
  rewrite !updateAt_IDs by done.
  split; [done|]. split; [done|]. split; [done|]. split; [done|]. split.
  - destruct (decide (id ∈ ID <$> tasks s)) as [Hin|Hout].
    + destruct (Delete_found marshalIndent env id s fs Hin)
        as (n & t & Hn & Ht & ->). simpl.
      cut (ID <$> take n (tasks s) ++ drop (S n) (tasks s)
           `sublist_of` ID <$> tasks s);
        [intros Hsub; eapply sublist_NoDup; eauto|].
      apply fmap_sublist.
      rewrite <- (take_drop_middle (tasks s) n t Hn) at 3.
      apply sublist_app; [done|]. by apply sublist_cons.
    + unfold Delete, findTaskIndex.
      rewrite findTaskIndex_from_absent by done.
      by rewrite decide_False by lia.
  - unfold Add. destruct (Save _ _ _ _) as [fs' err]. simpl.
    rewrite fmap_app. simpl. rewrite NoDup_app. split.
    + intros (_ & Hsep & _) Hin. apply (Hsep _ Hin). by left.
    + intros Hfresh. split; [done|]. split.
      * intros x Hx [->|Hnil%not_elem_of_nil]%elem_of_cons; done.
      * apply NoDup_singleton.
Qed.

Lemma Save_file env s fs :
  (∀ p, p ≠ filepath s → (Save marshalIndent env s fs).1 !! p = fs !! p) ∧
  ((Save marshalIndent env s fs).2 = None ↔ write env = WriteOk) ∧
  ((Save marshalIndent env s fs).2 = None →
   (Save marshalIndent env s fs).1 !! filepath s
   = Some (marshalIndent (tasks s))).
Proof.
  unfold Save, WriteFile. destruct (write env) as [|msg [r|]]; simpl.
  - split; [|split; [done|]].
    + intros p Hp. by rewrite lookup_insert_ne.
    + intros _. by rewrite lookup_insert_eq.
  - split; [|split; [done|done]].
    intros p Hp. by rewrite lookup_insert_ne.
  - by split.
Qed.

Lemma Save_writes env s ts fs :
  let r := Save marshalIndent env (set_tasks ts s) fs in
  (∀ p, p ≠ filepath s → r.1 !! p = fs !! p) ∧
  (r.2 ≠ None → write env ≠ WriteOk) ∧
  (r.2 = None → r.1 !! filepath s = Some (marshalIndent ts)).
Proof.
  intros r. destruct (Save_file env (set_tasks ts s) fs)
    as (Hframe & Herr & Hsync). split; [done|]. split; [|done].
  intros Hne Hok. by apply Hne, Herr.
Qed.

Lemma updateAt_writes env change id s fs :
  writes marshalIndent s fs env (updateAt marshalIndent env change id s fs).
Proof.
  unfold writes, updateAt. case_decide.
  - match goal with
    | |- context [Save _ _ (set_tasks ?ts s) _] =>
        destruct (Save_writes env s ts fs) as (Hf & He & Hs)
    end.
    destruct (Save _ _ _ _) as [fs' err]. simpl in *.
    split; [done|]. split; [done|]. intros Hnil. right. by apply Hs.
  - simpl. split; [done|]. split; [done|]. by left.
Qed.

Lemma Add_writes env description category s fs :
  writes marshalIndent s fs env (Add marshalIndent formatMicro env description category s fs).
Proof.
  unfold writes, Add.
  match goal with
  | |- context [Save _ _ (set_tasks ?ts s) _] =>
      destruct (Save_writes env s ts fs) as (Hf & He & Hs)
  end.
  destruct (Save _ _ _ _) as [fs' err]. simpl in *.
  split; [done|]. split; [done|]. intros Hnil. right. by apply Hs.
Qed.

Lemma Delete_writes env id s fs :
  writes marshalIndent s fs env (Delete marshalIndent env id s fs).
Proof.
  unfold writes, Delete. case_decide.
  - match goal with
    | |- context [Save _ _ (set_tasks ?ts s) _] =>
        destruct (Save_writes env s ts fs) as (Hf & He & Hs)
    end.
    destruct (Save _ _ _ _) as [fs' err]. simpl in *.
    split; [done|]. split; [done|]. intros Hnil. right. by apply Hs.
  - simpl. split; [done|]. split; [done|]. by left.
Qed.

(** X6. Every mutating method leaves all files but the file of the store as
    they were.  It returns an error only when it wrote and the write
    failed, and when it returns nil it either changed nothing at all or
    the file holds the serialisation of the tasks now in memory. *)
Theorem mutators_write_own_file (env : Env) (id : string) (s : TaskStore)
    (fs : FS) (status : TaskStatus) (description : string)
    (category : TaskCategory) :
  let writes (r : TaskStore * FS * error) :=
    (∀ p, p ≠ filepath s → r.1.2 !! p = fs !! p) ∧
    (r.2 ≠ None → write env ≠ WriteOk) ∧
    (r.2 = None →
     (r.1.1 = s ∧ r.1.2 = fs) ∨
     r.1.2 !! filepath s = Some (marshalIndent (tasks r.1.1))) in
  writes (Add marshalIndent formatMicro env description category s fs) ∧
  writes (UpdateStatus marshalIndent env id status s fs) ∧
  writes (UpdateDescription marshalIndent env id description s fs) ∧
  writes (UpdateCategory marshalIndent env id category s fs) ∧
  writes (Update marshalIndent env id description category s fs) ∧
  writes (Delete marshalIndent env id s fs).
Proof.
  intros w. unfold w.
  unfold UpdateStatus, UpdateDescription, UpdateCategory, Update.
  split; [apply Add_writes|]. do 4 (split; [apply updateAt_writes|]).
  apply Delete_writes.
Qed.

Lemma Add_tasks env description category s fs :
  tasks (Add marshalIndent formatMicro env description category s fs).1.1
  = tasks s ++ [mkTask (generateID formatMicro (clock env 0%nat)) description
                  StatusPending category (clock env 1%nat) (clock env 2%nat)] ∧
  filepath (Add marshalIndent formatMicro env description category s fs).1.1
  = filepath s.
Proof. unfold Add. by destruct (Save _ _ _ _). Qed.

(** X7. Add puts the new task, pending and with the description and the
    category given, behind the tasks of the store, whatever the write does;
    a filter of the new store is the filter of the old one, followed by the
    new task when it passes. *)
Theorem Add_then_Filter (env : Env) (description : string)
    (category : TaskCategory) (s : TaskStore) (fs : FS) (F : FilterOptions) :
  let s' := (Add marshalIndent formatMicro env description category s fs).1.1 in
  let task := mkTask (generateID formatMicro (clock env 0%nat)) description
                StatusPending category (clock env 1%nat) (clock env 2%nat) in
  tasks s' = tasks s ++ [task] ∧
  Filter s' F = Filter s F ++ (if decide (matches F task) then [task] else []) ∧
  (task ∈ Filter s' F ↔
   task ∈ Filter s F ∨
   ((opt_Status F = None ∨ opt_Status F = Some StatusPending) ∧
    (opt_Category F = None ∨ opt_Category F = Some category))).
Proof.
  intros s' task.
  assert (Hts : tasks s' = tasks s ++ [task]) by apply Add_tasks.
  split; [done|].
  assert (Hf : Filter s' F
               = Filter s F ++ (if decide (matches F task) then [task] else [])).
  { rewrite !Filter_filter, Hts, filter_app. by f_equal. }
  split; [done|]. rewrite Hf, elem_of_app.
  split; (intros [?|Hnew]; [by left|right]).
  - case_decide as Hm; [exact Hm|]. by apply not_elem_of_nil in Hnew.
  - rewrite decide_True by exact Hnew. by left.
Qed.

(** X8. Update has the effect in memory of UpdateDescription followed by
    UpdateCategory when the clock reads the same. *)
Theorem Update_in_two_steps (env : Env) (id : string) (description : string)
    (category : TaskCategory) (s : TaskStore) (fs fs1 : FS) :
  (Update marshalIndent env id description category s fs).1.1
  = (UpdateCategory marshalIndent env id category
       (UpdateDescription marshalIndent env id description s fs).1.1 fs1).1.1.
Proof.
  unfold Update, UpdateCategory, UpdateDescription.
  assert (Hidx : findTaskIndex
                   (updateAt marshalIndent env (set_Description description)
                      id s fs).1.1 id
                 = findTaskIndex s id).
  { unfold findTaskIndex. apply findTaskIndex_from_ids.
    by apply updateAt_IDs. }
  unfold updateAt at 2. rewrite Hidx. unfold updateAt.
  case_decide; [|done].
  repeat match goal with
         | |- context [Save ?a ?b ?c ?d] => destruct (Save a b c d) as [? ?]
         end.
  simpl. unfold set_tasks. simpl. f_equal.
  rewrite list_alter_alter_eq. apply list_alter_ext; [|done].
  intros t _. reflexivity.
Qed.

End StoreExtra.

(** * Further properties of the controller *)

(** X11. hasCurrentTask holds, for a cursor that is not negative, exactly when
    [m.tasks[m.cursor]] exists; on an empty list it never holds. *)
Theorem hasCurrentTask_indexes (m : model) :
  (hasCurrentTask m = true ∧ 0 ≤ cursor m ↔ is_Some (getCurrentTask m)) ∧
  (model_tasks m = [] → hasCurrentTask m = false) ∧
  (cursor m < 0 → getCurrentTask m = None).
Proof.
  unfold hasCurrentTask, getCurrentTask, len_tasks.
  split; [|split].
  - destruct (Z.ltb_spec (cursor m) 0) as [Hneg|Hpos].
    + split; [lia|]. by intros [? ?].
    + rewrite lookup_lt_is_Some, andb_true_iff, !Z.ltb_lt. lia.
  - intros ->. reflexivity.
  - intros Hneg. by rewrite (proj2 (Z.ltb_lt _ _) Hneg).
Qed.

(** The visible length after one task of the store is replaced. *)
Lemma filter_alter_length (P : Task → Prop) `{∀ t, Decision (P t)}
    (f : Task → Task) (i : nat) (ts : list Task) :
  (length (filter P ts) ≤ S (length (filter P (alter f i ts))))%nat.
Proof.
  destruct (ts !! i) as [t|] eqn:Hi.
  - assert (Hlen : length (take i ts) = i).
    { apply length_take_le. apply lookup_lt_Some in Hi. lia. }
    pose proof (take_drop_middle ts i t Hi) as Hts.
    revert Hts Hlen. generalize (take i ts) (drop (S i) ts).
    intros l1 l2 <- <-.
    rewrite alter_app_r_alt by lia. rewrite Nat.sub_diag. simpl.
    rewrite !filter_app, !filter_cons, !length_app.
    repeat case_decide; simpl; lia.
  - replace (alter f i ts) with ts; [lia|].
    apply list_eq. intros j. destruct (decide (i = j)) as [<-|Hne].
    + by rewrite list_lookup_alter_eq, Hi.
    + by rewrite list_lookup_alter_ne.
Qed.

Section ControllerExtra.

Variable marshalIndent : list Task -> string.
Variable formatMicro : Z -> string.
Variable SetValue : string -> TextInput -> TextInput.
Variable textinput_Update : TextInput -> Msg -> TextInput * Cmd.

Abbreviation step :=
  (model_Update marshalIndent formatMicro SetValue textinput_Update).
Abbreviation runFrom :=
  (run marshalIndent formatMicro SetValue textinput_Update).

(** How the length of a filter changes under the methods of the store
    that the controller calls. *)
Lemma updateAt_Filter_length env change id s fs s' fs' err F :
  updateAt marshalIndent env change id s fs = (s', fs', err) →
  (length (Filter s F) ≤ S (length (Filter s' F)))%nat.
Proof.
  unfold updateAt. intros H. case_decide.
  - destruct (Save _ _ _ _) as [? ?]. simplify_eq.
    rewrite Filter_set_tasks, Filter_filter. apply filter_alter_length.
  - simplify_eq. lia.
Qed.

Lemma Delete_Filter_length env id s fs s' fs' err F :
  Delete marshalIndent env id s fs = (s', fs', err) →
  (length (Filter s F) ≤ S (length (Filter s' F)))%nat.
Proof.
  intros H. destruct (decide (id ∈ ID <$> tasks s)) as [Hin|Hout].
  - destruct (Delete_found marshalIndent env id s fs Hin)
      as (n & t & Hn & _ & Hdel).
    rewrite H in Hdel. simpl in Hdel. subst s'.
    rewrite Filter_set_tasks, Filter_filter.
    rewrite (filter_remove_length _ _ n t Hn). case_decide; lia.
  - unfold Delete, findTaskIndex in H.
    rewrite findTaskIndex_from_absent in H by done.
    rewrite decide_False in H by lia. simplify_eq. lia.
Qed.

Lemma Add_Filter_length env d c s fs s' fs' err F :
  Add marshalIndent formatMicro env d c s fs = (s', fs', err) →
  (length (Filter s F) ≤ length (Filter s' F))%nat.
Proof.
  intros H.
  destruct (Add_tasks marshalIndent formatMicro env d c s fs) as [Hts _].
  rewrite H in Hts. simpl in Hts.
  rewrite !Filter_filter, Hts, filter_app, length_app. lia.
Qed.

Lemma step_cursorOK env m fs msg m' fs' c :
  step env m fs msg = Some (m', fs', c) →
  visibleOK m → cursorOK m → cursorOK m'.
Proof.
  intros H Hv [Hc Hedit]. unfold visibleOK, filterOptions in Hv.
  unfold_handlers H.
  destruct msg as [k|tag]; [destruct (viewMode m) eqn:Hmode|].
  all: handler_cases H.
  all: repeat case_match; simplify_eq.
  all: repeat match goal with
         | Hh : hasCurrentTask _ = true |- _ =>
             unfold hasCurrentTask in Hh;
             apply andb_true_iff in Hh as [?%Z.ltb_lt ?%Z.ltb_lt]
         | Hu : UpdateStatus _ _ _ _ _ _ = _ |- _ =>
             unfold UpdateStatus in Hu;
             apply (updateAt_Filter_length _ _ _ _ _ _ _ _
                      (mkFilterOptions (filterStatus m) (filterCategory m)))
               in Hu
         | Hu : Update _ _ _ _ _ _ _ = _ |- _ =>
             unfold Update in Hu;
             apply (updateAt_Filter_length _ _ _ _ _ _ _ _
                      (mkFilterOptions (filterStatus m) (filterCategory m)))
               in Hu
         | Hu : Delete _ _ _ _ _ = _ |- _ =>
             apply (Delete_Filter_length _ _ _ _ _ _ _
                      (mkFilterOptions (filterStatus m) (filterCategory m)))
               in Hu
         | Hu : Add _ _ _ _ _ _ _ = _ |- _ =>
             apply (Add_Filter_length _ _ _ _ _ _ _ _
                      (mkFilterOptions (filterStatus m) (filterCategory m)))
               in Hu
         end.
  all: repeat match goal with
         | Hb : _ && _ = true |- _ => apply andb_true_iff in Hb as [? ?]
         | Hb : _ && _ = false |- _ => apply andb_false_iff in Hb
         | Hb : (_ <? _) = true |- _ => apply Z.ltb_lt in Hb
         | Hb : (_ <? _) = false |- _ => apply Z.ltb_ge in Hb
         | Hb : (_ <=? _) = true |- _ => apply Z.leb_le in Hb
         | Hb : (_ <=? _) = false |- _ => apply Z.leb_gt in Hb
         end.
  all: unfold cursorOK, len_tasks in *; simpl in *.
  all: try rewrite Hv in *.
  all: try specialize (Hedit eq_refl).
  all: try (split; [lia|intros; first [congruence | lia]]).
  all: try (split; [lia|intros; first [congruence | intuition lia]]).
Qed.

Lemma step_formOK env m fs msg m' fs' c :
  step env m fs msg = Some (m', fs', c) → formOK m → formOK m'.
Proof.
  intros H (Ha & He & Hn). unfold_handlers H.
  destruct msg as [k|tag]; [destruct (viewMode m) eqn:Hmode|].
  all: handler_cases H.
  all: repeat case_match; simplify_eq.
  all: unfold formOK, getCurrentTask in *; simpl in *.
  all: try (split; [first [by left | by right | done]|]).
  all: try (split; [intros; first [congruence | by eauto]
                   |intros; first [congruence | by auto]]).
Qed.

Lemma initialModel_reach st :
  visibleOK (initialModel st) ∧ cursorOK (initialModel st) ∧
  formOK (initialModel st).
Proof.
  split; [apply initialModel_Inv|]. split.
  - unfold cursorOK, len_tasks. simpl. split; [lia|discriminate].
  - unfold formOK. simpl. split; [by left|]. split; [discriminate|done].
Qed.

Lemma run_reach events : ∀ m fs,
  visibleOK m ∧ cursorOK m ∧ formOK m →
  ∃ m' fs', runFrom events m fs = Some (m', fs') ∧
            visibleOK m' ∧ cursorOK m' ∧ formOK m'.
Proof.
  induction events as [|[env msg] events IH]; intros m fs (Hv & Hc & Hf).
  - by exists m, fs.
  - destruct (step_Inv marshalIndent formatMicro SetValue textinput_Update
                env m fs msg) as (m1 & fs1 & c & Hstep & Hv1 & _).
    { split; [done|]. apply Hc. }
    cbn [run]. rewrite Hstep. simpl. apply IH.
    split; [done|]. split.
    + by eapply step_cursorOK.
    + by eapply step_formOK.
Qed.

(** X12. Every sequence of events from the initial model ends in a state where
    the cursor is between 0 and the number of visible tasks, the active
    input is 0 or 1, the edit form edits the task under the cursor, which
    is a task of the store, and outside the edit form no task is edited. *)
Theorem reachable_state (st : TaskStore) (fs0 : FS)
    (events : list (Env * Msg)) :
  ∃ m fs, runFrom events (initialModel st) fs0 = Some (m, fs) ∧
    0 ≤ cursor m ≤ len_tasks m ∧
    (activeInput m = 0 ∨ activeInput m = 1) ∧
    (viewMode m = ModeEdit →
     ∃ t, getCurrentTask m = Some t ∧ editingTaskID m = ID t ∧
          t ∈ tasks (store m) ∧ hasCurrentTask m = true) ∧
    (viewMode m ≠ ModeEdit → editingTaskID m = "").
Proof.
  destruct (run_reach events (initialModel st) fs0 (initialModel_reach st))
    as (m & fs & Hrun & Hv & [Hc Hedit] & Ha & He & Hn).
  exists m, fs. split; [done|]. split; [done|]. split; [done|].
  split; [|done]. intros Hmode.
  destruct (He Hmode) as (t & Hget & Hid). exists t.
  split; [done|]. split; [done|]. split.
  - unfold getCurrentTask in Hget. case_match; [done|].
    apply list_elem_of_lookup_2 in Hget. rewrite Hv, Filter_filter in Hget.
    by apply list_elem_of_filter in Hget as [_ ?].
  - unfold hasCurrentTask. specialize (Hedit Hmode).
    apply andb_true_iff. split; apply Z.ltb_lt; lia.
Qed.

(** X13. The handlers write only on the events of [mutating]: on any other
    event the store and the disk are left alone, and outside the two filter
    menus so are the filters and the visible list. *)
Theorem only_mutating_events_write (env : Env) (m : model) (fs : FS)
    (msg : Msg) :
  0 ≤ cursor m → mutating m msg = false →
  ∃ m' c, step env m fs msg = Some (m', fs, c) ∧ store m' = store m ∧
    (viewMode m ≠ ModeFilter → viewMode m ≠ ModeFilterCategory →
     sameView m m').
Proof.
  intros Hc Hmut.
  destruct (step_total marshalIndent formatMicro SetValue textinput_Update
              env m fs msg Hc) as [[[m' fs'] c] H].
  rewrite H. unfold mutating, isEnter in Hmut.
  unfold_handlers H.
  destruct msg as [k|tag]; [destruct (viewMode m) eqn:Hmode|].
  all: handler_cases H.
  all: repeat case_match; simplify_eq.
  all: try (eexists _, _; split; [reflexivity|]; split; [reflexivity|];
            intros; first [done | by repeat split]).
  all: exfalso.
  all: repeat match goal with
         | e : KeyMsg_String _ = _ |- _ => rewrite e in Hmut; clear e
         | e : hasCurrentTask _ = true |- _ => rewrite e in Hmut; clear e
         | e : key_Type _ = _ |- _ => rewrite e in Hmut; clear e
         end.
  all: try (rewrite !bool_decide_eq_true_2 in Hmut by done).
  all: try (vm_compute in Hmut; discriminate).
  all: simpl in Hmut; try discriminate.
Qed.


(** X15. A choice p, i or d of the status menu shows, in the order of the store,
    exactly the tasks of the store that have the chosen status and the
    category of the category filter when one is active; the category filter
    stays, the cursor goes to the first row, nothing is written. *)
Theorem status_filter_choice (env : Env) (m : model) (fs : FS) (k : KeyMsg)
    (status : TaskStatus) :
  viewMode m = ModeFilter →
  statusOfKey (KeyMsg_String k) = Some status →
  ∃ m', step env m fs (KeyPress k) = Some (m', fs, CmdNil) ∧
    filterStatus m' = Some status ∧ filterCategory m' = filterCategory m ∧
    store m' = store m ∧ viewMode m' = ModeList ∧ cursor m' = 0 ∧
    model_tasks m' `sublist_of` tasks (store m) ∧
    (∀ t, t ∈ model_tasks m' ↔
          t ∈ tasks (store m) ∧ Status t = status ∧
          ∀ c, filterCategory m = Some c → Category t = c).
Proof.
  intros Hmode Hk. unfold model_Update. rewrite Hmode.
  unfold updateFilterMode, statusOfKey in *.
  assert (Hdone : ∀ msg,
    let m' := applyStatusFilter status msg m in
    filterStatus m' = Some status ∧ filterCategory m' = filterCategory m ∧
    store m' = store m ∧ viewMode m' = ModeList ∧ cursor m' = 0 ∧
    model_tasks m' `sublist_of` tasks (store m) ∧
    (∀ t, t ∈ model_tasks m' ↔
          t ∈ tasks (store m) ∧ Status t = status ∧
          ∀ c, filterCategory m = Some c → Category t = c)).
  { intros msg. simpl. do 5 (split; [done|]).
    rewrite Filter_filter. split; [apply sublist_filter|].
    intros t. rewrite list_elem_of_filter. unfold matches. simpl.
    split.
    - intros [[[Hs|Hs] Hc] Hin]; [done|]. split; [done|].
      split; [congruence|]. intros c Hfc. rewrite Hfc in Hc.
      destruct Hc; congruence.
    - intros (Hin & <- & Hc). split; [|done]. split; [by right|].
      destruct (filterCategory m) as [c|]; [right|by left].
      by rewrite (Hc c). }
  repeat case_decide; simplify_eq;
    match goal with
    | H : KeyMsg_String k = _ |- _ => rewrite H in *
    end; try done; eexists; (split; [reflexivity|]); apply Hdone.
Qed.

(** X16. With no status filter active, the category that a number of the menu
    selects is not empty and at least one task is shown: all the tasks of
    the store in that category, with the cursor on the first of them. *)
Theorem category_choice_shows_tasks (env : Env) (m : model) (fs : FS)
    (k : KeyMsg) (d : Z) :
  viewMode m = ModeFilterCategory → filterStatus m = None →
  KeyMsg_String k = digitKey d →
  1 ≤ d ≤ 9 → d ≤ Z.of_nat (length (GetCategories env (store m))) →
  ∃ c m', step env m fs (KeyPress k) = Some (m', fs, CmdNil) ∧
    filterCategory m' = Some c ∧ c ≠ "" ∧
    model_tasks m' = filter (fun t => Category t = c) (tasks (store m)) ∧
    model_tasks m' ≠ [] ∧ hasCurrentTask m' = true ∧
    is_Some (getCurrentTask m').
Proof.
  intros Hmode Hfs Hk Hd Hlen.
  destruct (updateFilterCategoryMode_digit env m fs k d) as [Hsel _];
    [lia|done|].
  destruct Hsel as (c & m' & Hc & Hstep & Hfc & _ & Htasks & _ & Hcur & _);
    [lia|].
  exists c, m'. unfold model_Update. rewrite Hmode. split; [done|].
  split; [done|].
  assert (Hin : c ∈ GetCategories env (store m))
    by (eapply list_elem_of_lookup_2; exact Hc).
  apply GetCategories_spec in Hin as (Hne & t & Ht & Hcat).
  split; [done|].
  assert (Hfilter : model_tasks m'
                    = filter (fun t => Category t = c) (tasks (store m))).
  { rewrite Htasks, Hfs, Filter_filter. apply list_filter_iff.
    intros t'. unfold matches. simpl. intuition congruence. }
  split; [done|].
  assert (Hnonempty : model_tasks m' ≠ []).
  { rewrite Hfilter. intros Hnil.
    assert (t ∈ filter (fun t => Category t = c) (tasks (store m))) as Hf
      by (by apply list_elem_of_filter).
    rewrite Hnil in Hf. by apply not_elem_of_nil in Hf. }
  split; [done|].
  assert (Hlt : 0 < len_tasks m').
  { unfold len_tasks. destruct (model_tasks m'); [done|]. simpl. lia. }
  assert (Hhas : hasCurrentTask m' = true).
  { unfold hasCurrentTask. rewrite Hcur.
    apply andb_true_iff. split; by apply Z.ltb_lt. }
  split; [done|].
  destruct (getCurrentTask_Some m' Hhas) as (t' & -> & _); [lia|by eexists].
Qed.

(** X17. Enter in the create form with a description and a category: the new
    task, pending and with both texts trimmed, is put behind the tasks of
    the store, also when the write fails; it is shown, last, exactly when
    it passes the active filters; filters and cursor stay; after a write
    that succeeded the file holds the new list. *)
Theorem create_appends_task (env : Env) (m : model) (fs : FS) (k : KeyMsg) :
  viewMode m = ModeCreate → key_Type k = KeyEnter →
  TrimSpace (Value (textInput m)) ≠ "" →
  TrimSpace (Value (categoryInput m)) ≠ "" →
  visibleOK m →
  let task := mkTask (generateID formatMicro (clock env 0%nat))
                (TrimSpace (Value (textInput m))) StatusPending
                (TrimSpace (Value (categoryInput m)))
                (clock env 1%nat) (clock env 2%nat) in
  ∃ m' fs', step env m fs (KeyPress k) = Some (m', fs', CmdNil) ∧
    tasks (store m') = tasks (store m) ++ [task] ∧
    model_tasks m'
    = model_tasks m ++
      (if decide (matches (filterOptions m) task) then [task] else []) ∧
    viewMode m' = ModeList ∧ cursor m' = cursor m ∧
    filterStatus m' = filterStatus m ∧
    filterCategory m' = filterCategory m ∧
    (write env = WriteOk →
     fs' = <[filepath (store m) := marshalIndent (tasks (store m'))]> fs) ∧
    (∀ e r, write env = WriteFail e r →
            message m' = "Error creating task: " +:+ e).
Proof.
  intros Hmode Hk Hd Hc Hv task.
  unfold model_Update, updateCreateMode. rewrite Hmode, Hk.
  rewrite !decide_False by done.
  unfold visibleOK, filterOptions in *.
  destruct (Add_tasks marshalIndent formatMicro env
              (TrimSpace (Value (textInput m)))
              (TrimSpace (Value (categoryInput m))) (store m) fs)
    as [Hts Hfp].
  fold task in Hts.
  assert (Hfs : let r := Add marshalIndent formatMicro env
                           (TrimSpace (Value (textInput m)))
                           (TrimSpace (Value (categoryInput m))) (store m) fs in
                (write env = WriteOk →
                 r.1.2 = <[filepath (store m) := marshalIndent (tasks r.1.1)]> fs)
                ∧ (∀ e r', write env = WriteFail e r' → r.2 = Some e)).
  { unfold Add, Save, WriteFile.
    destruct (write env) as [|e [r|]]; simpl; split; intros; by simplify_eq. }
  destruct (Add _ _ _ _ _ _ _) as [[s' fs'] err]. simpl in Hts, Hfp, Hfs.
  destruct Hfs as [Hok Hfail].
  eexists _, fs'. split; [reflexivity|].
  assert (Hvis : Filter s' (mkFilterOptions (filterStatus m) (filterCategory m))
                 = model_tasks m ++
                   (if decide (matches (mkFilterOptions (filterStatus m)
                                          (filterCategory m)) task)
                    then [task] else [])).
  { by rewrite Hv, !Filter_filter, Hts, filter_app. }
  destruct err as [e|]; simpl.
  - do 6 (split; [done|]). split; [done|].
    intros e' r' Hw. specialize (Hfail e' r' Hw). by simplify_eq.
  - do 6 (split; [done|]). split; [done|].
    intros e' r' Hw. by specialize (Hfail e' r' Hw).
Qed.

(** X18. Enter in the edit form with a description, for an id that the store
    has: the first task with the id gets the trimmed description and the
    trimmed category, which may be empty, and the time of the update; its
    id, status and creation time and all other tasks stay; the list is
    shown again under the active filters and no task is edited any more. *)
Theorem edit_saves_first_match (env : Env) (m : model) (fs : FS)
    (k : KeyMsg) :
  viewMode m = ModeEdit → key_Type k = KeyEnter →
  TrimSpace (Value (textInput m)) ≠ "" →
  editingTaskID m ∈ ID <$> tasks (store m) →
  ∃ m' fs' l1 t l2, step env m fs (KeyPress k) = Some (m', fs', CmdNil) ∧
    tasks (store m) = l1 ++ t :: l2 ∧ (editingTaskID m ∉ ID <$> l1) ∧
    ID t = editingTaskID m ∧
    tasks (store m')
    = l1 ++ mkTask (ID t) (TrimSpace (Value (textInput m))) (Status t)
                   (TrimSpace (Value (categoryInput m))) (CreatedAt t)
                   (clock env 0%nat) :: l2 ∧
    model_tasks m' = Filter (store m') (filterOptions m) ∧
    viewMode m' = ModeList ∧ editingTaskID m' = "" ∧
    cursor m' = cursor m ∧
    filterStatus m' = filterStatus m ∧ filterCategory m' = filterCategory m.
Proof.
  intros Hmode Hk Hd Hin.
  unfold model_Update, updateEditMode. rewrite Hmode, Hk.
  rewrite decide_False by done.
  destruct (updateAt_found marshalIndent env
              (fun t => set_Category (TrimSpace (Value (categoryInput m)))
                          (set_Description
                             (TrimSpace (Value (textInput m))) t))
              (editingTaskID m) (store m) fs Hin)
    as (l1 & t & l2 & Hts & Habs & Ht & Hupd).
  unfold Update.
  destruct (updateAt _ _ _ _ _ _) as [[s' fs'] err]. simpl in Hupd. subst s'.
  exists (with_viewMode ModeList
            (with_editingTaskID ""
               (refreshTasks
                  (match err with
                   | Some e => with_message ("Error updating task: " +:+ e)
                   | None => with_message "Task updated successfully"
                   end (with_store
                          (set_tasks
                             (l1 ++ set_UpdatedAt (clock env 0%nat)
                                      (set_Category
                                         (TrimSpace (Value (categoryInput m)))
                                         (set_Description
                                            (TrimSpace (Value (textInput m)))
                                            t)) :: l2) (store m)) m))))),
    fs', l1, t, l2.
  split; [by destruct err|]. do 3 (split; [done|]).
  destruct err; simpl; by repeat split.
Qed.

(** X19. A status key of the list on a current task: the first task of the
    store with the id of the task under the cursor gets the status of the
    key, "d" choosing by the status of the task under the cursor, and the
    time of the update; the list is filtered again and the cursor stays.
    When the ids of the store are pairwise distinct that task is the one
    under the cursor. *)
Theorem status_keys_set_status (env : Env) (m : model) (fs : FS)
    (k : KeyMsg) (t : Task) (status : TaskStatus) :
  viewMode m = ModeList → visibleOK m →
  hasCurrentTask m = true → getCurrentTask m = Some t →
  statusKey (KeyMsg_String k) t = Some status →
  ∃ m' fs' l1 t1 l2, step env m fs (KeyPress k) = Some (m', fs', CmdNil) ∧
    tasks (store m) = l1 ++ t1 :: l2 ∧ (ID t ∉ ID <$> l1) ∧ ID t1 = ID t ∧
    tasks (store m')
    = l1 ++ mkTask (ID t1) (Description t1) status (Category t1)
                   (CreatedAt t1) (clock env 0%nat) :: l2 ∧
    model_tasks m' = Filter (store m') (filterOptions m) ∧
    cursor m' = cursor m ∧ viewMode m' = ModeList ∧
    filterStatus m' = filterStatus m ∧ filterCategory m' = filterCategory m ∧
    (NoDup (ID <$> tasks (store m)) → t1 = t).
Proof.
  intros Hmode Hv Hhas Hget Hk.
  assert (Ht : t ∈ tasks (store m)).
  { unfold getCurrentTask in Hget. case_match; [done|].
    apply list_elem_of_lookup_2 in Hget.
    rewrite Hv, Filter_filter in Hget.
    by apply list_elem_of_filter in Hget as [_ ?]. }
  assert (Hin : ID t ∈ ID <$> tasks (store m))
    by (apply list_elem_of_fmap; by exists t).
  destruct (updateAt_found marshalIndent env (set_Status status) (ID t)
              (store m) fs Hin) as (l1 & t1 & l2 & Hts & Habs & Ht1 & Hupd).
  assert (Hres : ∃ m' fs',
    step env m fs (KeyPress k) = Some (m', fs', CmdNil) ∧
    store m' = (UpdateStatus marshalIndent env (ID t) status (store m) fs).1.1
    ∧ model_tasks m' = Filter (store m') (filterOptions m) ∧
    cursor m' = cursor m ∧ viewMode m' = ModeList ∧
    filterStatus m' = filterStatus m ∧ filterCategory m' = filterCategory m).
  { unfold statusKey in Hk.
    repeat case_decide; simplify_eq;
      unfold model_Update, updateListMode; rewrite Hmode;
      match goal with
      | H : KeyMsg_String k = _ |- _ => rewrite H
      end; key_cases; rewrite Hhas; try rewrite Hget; simpl;
      try rewrite decide_True by done; try rewrite decide_False by done.
    all: match goal with
         | |- context [updateTaskStatus _ _ ?st _ _] =>
             unfold updateTaskStatus; rewrite Hhas, Hget; simpl;
             destruct (UpdateStatus marshalIndent env (ID t) st (store m) fs)
               as [[s' fs'] [e|]]; simpl
         end.
    all: eexists _, _; split; [reflexivity|]; by repeat split. }
  destruct Hres as (m' & fs' & Hrun & Hstore & Hrest).
  exists m', fs', l1, t1, l2. split; [done|]. do 3 (split; [done|]).
  split.
  { rewrite Hstore. unfold UpdateStatus. rewrite Hupd. reflexivity. }
  destruct Hrest as (? & ? & ? & ? & ?). do 5 (split; [done|]).
  intros Hnd. apply (NoDup_fmap_eq ID (tasks (store m))); try done.
  rewrite Hts. apply elem_of_app. right. by left.
Qed.

Lemma updateAt_filepath env change id s fs :
  filepath (updateAt marshalIndent env change id s fs).1.1 = filepath s.
Proof.
  unfold updateAt. case_decide; [|done]. by destruct (Save _ _ _ _).
Qed.

Lemma Delete_filepath env id s fs :
  filepath (Delete marshalIndent env id s fs).1.1 = filepath s.
Proof.
  unfold Delete. case_decide; [|done]. by destruct (Save _ _ _ _).
Qed.

Lemma writes_diskOK env s fs r :
  writes marshalIndent s fs env r → filepath r.1.1 = filepath s →
  diskOK marshalIndent (write env = WriteOk) s fs r.1.1 r.1.2.
Proof.
  intros (Hframe & Herr & Hsync) Hpath. split; [done|]. split; [done|].
  intros Hok. apply Hsync. destruct (r.2) as [e|] eqn:He; [|done].
  exfalso. by apply Herr.
Qed.

Lemma diskOK_refl allOk s fs : diskOK marshalIndent allOk s fs s fs.
Proof. split; [done|]. split; [done|]. intros _. by left. Qed.

Lemma step_diskOK env m fs msg m' fs' c :
  step env m fs msg = Some (m', fs', c) →
  diskOK marshalIndent (write env = WriteOk) (store m) fs (store m') fs'.
Proof.
  intros H. unfold_handlers H.
  destruct msg as [k|tag]; [destruct (viewMode m) eqn:Hmode|].
  all: handler_cases H.
  all: repeat case_match; simplify_eq.
  all: simpl; try apply diskOK_refl.
  all: try match goal with
       | Hu : UpdateStatus _ ?env ?id ?st ?s ?fs = _ |- _ =>
           pose proof (writes_diskOK env s fs _
                         (updateAt_writes marshalIndent env (set_Status st)
                            id s fs)
                         (updateAt_filepath env (set_Status st) id s fs))
             as Hd;
           unfold UpdateStatus in Hu; rewrite Hu in Hd; exact Hd
       | Hu : Update _ ?env ?id ?d ?c ?s ?fs = _ |- _ =>
           pose proof (writes_diskOK env s fs _
                         (updateAt_writes marshalIndent env
                            (fun t => set_Category c (set_Description d t))
                            id s fs)
                         (updateAt_filepath env
                            (fun t => set_Category c (set_Description d t))
                            id s fs))
             as Hd;
           unfold Update in Hu; rewrite Hu in Hd; exact Hd
       | Hu : Delete _ ?env ?id ?s ?fs = _ |- _ =>
           pose proof (writes_diskOK env s fs _
                         (Delete_writes marshalIndent env id s fs)
                         (Delete_filepath env id s fs))
             as Hd;
           rewrite Hu in Hd; exact Hd
       | Hu : Add _ _ ?env ?d ?c ?s ?fs = _ |- _ =>
           pose proof (writes_diskOK env s fs _
                         (Add_writes marshalIndent formatMicro env d c s fs)
                         (proj2 (Add_tasks marshalIndent formatMicro env d c
                                   s fs)))
             as Hd;
           rewrite Hu in Hd; exact Hd
       end.
Qed.

Lemma run_diskOK events : ∀ m fs m' fs',
  runFrom events m fs = Some (m', fs') →
  diskOK marshalIndent (Forall (fun e => write e.1 = WriteOk) events)
    (store m) fs (store m') fs'.
Proof.
  induction events as [|[env msg] events IH]; intros m fs m' fs' Hrun.
  - simpl in Hrun. simplify_eq. apply diskOK_refl.
  - cbn [run] in Hrun.
    destruct (step env m fs msg) as [[[m1 fs1] c]|] eqn:Hstep; [|done].
    simpl in Hrun.
    destruct (step_diskOK _ _ _ _ _ _ _ Hstep) as (Hp1 & Hf1 & Hs1).
    destruct (IH _ _ _ _ Hrun) as (Hp2 & Hf2 & Hs2).
    split; [congruence|]. split.
    + intros p Hp. rewrite Hf2 by congruence. by apply Hf1.
    + intros [Hok Hall]%Forall_cons. simpl in Hok.
      destruct (Hs2 Hall) as [[-> ->]|Hsync]; [by apply Hs1|].
      right. by rewrite <- Hp1.
Qed.

(** X20. Whatever the events, the controller keeps the path of its store and
    touches no other file; and when every write succeeded, either store
    and disk are as at the start or the file of the store holds the
    serialisation of the tasks now in memory. *)
Theorem disk_follows_store (st : TaskStore) (fs0 : FS)
    (events : list (Env * Msg)) :
  ∃ m fs, runFrom events (initialModel st) fs0 = Some (m, fs) ∧
    filepath (store m) = filepath st ∧
    (∀ p, p ≠ filepath st → fs !! p = fs0 !! p) ∧
    (Forall (fun e => write e.1 = WriteOk) events →
     (store m = st ∧ fs = fs0) ∨
     fs !! filepath st = Some (marshalIndent (tasks (store m)))).
Proof.
  destruct (run_Inv marshalIndent formatMicro SetValue textinput_Update
              events (initialModel st) fs0 (initialModel_Inv st))
    as (m & fs & Hrun & _).
  exists m, fs. split; [done|]. by apply run_diskOK in Hrun.
Qed.

Lemma step_focusOK env m fs msg m' fs' c :
  (∀ v ti, ti_focus (SetValue v ti) = ti_focus ti) →
  (∀ ti msg, ti_focus (textinput_Update ti msg).1 = ti_focus ti) →
  step env m fs msg = Some (m', fs', c) → focusOK m → focusOK m'.
Proof.
  intros Hset Hupd H [Ht Hc]. unfold_handlers H.
  destruct msg as [k|tag]; [destruct (viewMode m) eqn:Hmode|].
  all: handler_cases H.
  all: repeat case_match; simplify_eq.
  all: repeat match goal with
         | Hu : textinput_Update ?a ?b = (?ti, _) |- _ =>
             let Hf := fresh "Hf" in
             pose proof (Hupd a b) as Hf; rewrite Hu in Hf; simpl in Hf;
             clear Hu
         end.
  all: unfold focusOK; simpl; rewrite ?Hset.
  all: try done.
  all: try (split; [congruence|done]).
  all: try (split; [done|congruence]).
  all: try (split; symmetry; [by apply bool_decide_eq_false_2
                             |by apply bool_decide_eq_true_2]).
Qed.

(** X21. When neither SetValue nor the Update of a text input changes its
    focus, every sequence of events from the initial model ends with the
    focus on the description input exactly when the active input is 0 and
    on the category input exactly when it is 1, so that a key typed in a
    form goes to the input that has the focus. *)
Theorem focus_follows_active_input (st : TaskStore) (fs0 : FS)
    (events : list (Env * Msg)) :
  (∀ v ti, ti_focus (SetValue v ti) = ti_focus ti) →
  (∀ ti msg, ti_focus (textinput_Update ti msg).1 = ti_focus ti) →
  ∃ m fs, runFrom events (initialModel st) fs0 = Some (m, fs) ∧
    ti_focus (textInput m) = bool_decide (activeInput m = 0) ∧
    ti_focus (categoryInput m) = bool_decide (activeInput m = 1).
Proof.
  intros Hset Hupd.
  assert (Hrun : ∀ events m fs,
            Inv m → focusOK m →
            ∃ m' fs', runFrom events m fs = Some (m', fs') ∧ focusOK m').
  { clear events. induction events as [|[env msg] events IH];
      intros m fs HI Hf.
    - by exists m, fs.
    - destruct (step_Inv marshalIndent formatMicro SetValue textinput_Update
                  env m fs msg HI) as (m1 & fs1 & c & Hstep & HI1).
      cbn [run]. rewrite Hstep. simpl. apply IH; [done|].
      by eapply step_focusOK. }
  apply Hrun; [apply initialModel_Inv|]. by split.
Qed.

End ControllerExtra.

(** X22. Icon and colour of a status go together: two statuses have the same
    icon exactly when they have the same colour; done, in-progress and
    pending have three different icons and colours, and every other status
    is displayed as pending is. *)
Theorem status_display (status status' : TaskStatus) :
  (getStatusIcon status = getStatusIcon status' ↔
   getStatusColor status = getStatusColor status') ∧
  (getStatusIcon status = getStatusIcon StatusPending ↔
   status ≠ StatusDone ∧ status ≠ StatusInProgress) ∧
  (getStatusColor status = colorPending ↔
   status ≠ StatusDone ∧ status ≠ StatusInProgress) ∧
  (getStatusIcon status = getStatusIcon StatusDone ↔ status = StatusDone) ∧
  (getStatusIcon status = getStatusIcon StatusInProgress ↔
   status = StatusInProgress).
Proof.
  unfold getStatusIcon, getStatusColor.
  repeat split; repeat case_decide; subst; try done;
    try (intros; vm_compute in *; congruence);
    try (intros [? ?]; done).
Qed.

(** * The further properties on concrete inputs *)

Lemma update_first_match_witness :
  ∃ l1 t l2, tasks threeTaskStore = l1 ++ t :: l2 ∧ ("2" ∉ ID <$> l1) ∧
    ID t = "2" ∧
    tasks (UpdateStatus exampleMarshal env0 "2" StatusPending
             threeTaskStore ∅).1.1
    = l1 ++ mkTask (ID t) (Description t) StatusPending (Category t)
                   (CreatedAt t) (clock env0 0%nat) :: l2 ∧
    tasks (UpdateDescription exampleMarshal env0 "2" "Call mum"
             threeTaskStore ∅).1.1
    = l1 ++ mkTask (ID t) "Call mum" (Status t) (Category t) (CreatedAt t)
                   (clock env0 0%nat) :: l2 ∧
    tasks (UpdateCategory exampleMarshal env0 "2" "family"
             threeTaskStore ∅).1.1
    = l1 ++ mkTask (ID t) (Description t) (Status t) "family" (CreatedAt t)
                   (clock env0 0%nat) :: l2 ∧
    tasks (Update exampleMarshal env0 "2" "Call mum" "family"
             threeTaskStore ∅).1.1
    = l1 ++ mkTask (ID t) "Call mum" (Status t) "family" (CreatedAt t)
                   (clock env0 0%nat) :: l2.
Proof.
  apply (update_first_match exampleMarshal env0 "2" threeTaskStore ∅
           StatusPending "Call mum" "family").
  simpl. right. left.
Defined.

Lemma Delete_first_match_witness :
  ∃ l1 t l2, tasks threeTaskStore = l1 ++ t :: l2 ∧ ("2" ∉ ID <$> l1) ∧
    ID t = "2" ∧
    tasks (Delete exampleMarshal env0 "2" threeTaskStore ∅).1.1 = l1 ++ l2 ∧
    filepath (Delete exampleMarshal env0 "2" threeTaskStore ∅).1.1
    = filepath threeTaskStore ∧
    (NoDup (ID <$> tasks threeTaskStore) →
     ("2" ∉ ID <$> tasks (Delete exampleMarshal env0 "2" threeTaskStore ∅).1.1)
     ∧ ∀ env' fs',
         Delete exampleMarshal env' "2"
           (Delete exampleMarshal env0 "2" threeTaskStore ∅).1.1 fs'
         = ((Delete exampleMarshal env0 "2" threeTaskStore ∅).1.1, fs', None)).
Proof.
  apply (Delete_first_match exampleMarshal env0 "2" threeTaskStore ∅).
  simpl. right. left.
Defined.

Lemma distinct_ids_kept_witness :
  NoDup (ID <$> tasks (UpdateStatus exampleMarshal env0 "2" StatusPending
                         threeTaskStore ∅).1.1) ∧
  NoDup (ID <$> tasks (UpdateDescription exampleMarshal env0 "2" "Call mum"
                         threeTaskStore ∅).1.1) ∧
  NoDup (ID <$> tasks (UpdateCategory exampleMarshal env0 "2" "family"
                         threeTaskStore ∅).1.1) ∧
  NoDup (ID <$> tasks (Update exampleMarshal env0 "2" "Call mum" "family"
                         threeTaskStore ∅).1.1) ∧
  NoDup (ID <$> tasks (Delete exampleMarshal env0 "2" threeTaskStore ∅).1.1) ∧
  (NoDup (ID <$> tasks (Add exampleMarshal exampleFormat env0 "Call mum"
                          "family" threeTaskStore ∅).1.1)
   ↔ generateID exampleFormat (clock env0 0%nat)
     ∉ ID <$> tasks threeTaskStore).
Proof.
  apply (distinct_ids_kept exampleMarshal exampleFormat env0 "2"
           threeTaskStore ∅ StatusPending "Call mum" "family").
  simpl. repeat constructor; intros H;
    repeat (apply elem_of_cons in H as [H|H]; [discriminate H|]);
    by apply not_elem_of_nil in H.
Defined.

Lemma only_mutating_events_write_witness :
  ∃ m' c, exampleStep env0 lastRow ∅ (KeyPress keyK) = Some (m', ∅, c) ∧
    store m' = store lastRow ∧
    (viewMode lastRow ≠ ModeFilter → viewMode lastRow ≠ ModeFilterCategory →
     sameView lastRow m').
Proof.
  apply (only_mutating_events_write exampleMarshal exampleFormat
           exampleSetValue exampleInputUpdate env0 lastRow ∅ (KeyPress keyK)).
  - simpl. lia.
  - reflexivity.
Defined.


Lemma status_filter_choice_witness :
  ∃ m', exampleStep env0 statusMenu ∅ (KeyPress (runeKey "d"))
        = Some (m', ∅, CmdNil) ∧
    filterStatus m' = Some StatusDone ∧
    filterCategory m' = filterCategory statusMenu ∧
    store m' = store statusMenu ∧ viewMode m' = ModeList ∧ cursor m' = 0 ∧
    model_tasks m' `sublist_of` tasks (store statusMenu) ∧
    (∀ t, t ∈ model_tasks m' ↔
          t ∈ tasks (store statusMenu) ∧ Status t = StatusDone ∧
          ∀ c, filterCategory statusMenu = Some c → Category t = c).
Proof.
  apply (status_filter_choice exampleMarshal exampleFormat exampleSetValue
           exampleInputUpdate env0 statusMenu ∅ (runeKey "d") StatusDone);
    reflexivity.
Defined.

Lemma category_choice_shows_tasks_witness :
  ∃ c m', exampleStep env0 categoryMenuAll ∅ (KeyPress (runeKey "1"))
          = Some (m', ∅, CmdNil) ∧
    filterCategory m' = Some c ∧ c ≠ "" ∧
    model_tasks m'
    = filter (fun t => Category t = c) (tasks (store categoryMenuAll)) ∧
    model_tasks m' ≠ [] ∧ hasCurrentTask m' = true ∧
    is_Some (getCurrentTask m').
Proof.
  apply (category_choice_shows_tasks exampleMarshal exampleFormat
           exampleSetValue exampleInputUpdate env0 categoryMenuAll ∅
           (runeKey "1") 1); [reflexivity|reflexivity|reflexivity|lia|].
  vm_compute. discriminate.
Defined.

Lemma create_appends_task_witness :
  let task := mkTask (generateID exampleFormat (clock env0 0%nat))
                (TrimSpace (Value (textInput errandsForm))) StatusPending
                (TrimSpace (Value (categoryInput errandsForm)))
                (clock env0 1%nat) (clock env0 2%nat) in
  ∃ m' fs', exampleStep env0 errandsForm ∅ (KeyPress keyEnter)
            = Some (m', fs', CmdNil) ∧
    tasks (store m') = tasks (store errandsForm) ++ [task] ∧
    model_tasks m'
    = model_tasks errandsForm ++
      (if decide (matches (filterOptions errandsForm) task) then [task]
       else []) ∧
    viewMode m' = ModeList ∧ cursor m' = cursor errandsForm ∧
    filterStatus m' = filterStatus errandsForm ∧
    filterCategory m' = filterCategory errandsForm ∧
    (write env0 = WriteOk →
     fs' = <[filepath (store errandsForm)
             := exampleMarshal (tasks (store m'))]> ∅) ∧
    (∀ e r, write env0 = WriteFail e r →
            message m' = "Error creating task: " +:+ e).
Proof.
  apply (create_appends_task exampleMarshal exampleFormat exampleSetValue
           exampleInputUpdate env0 errandsForm ∅ keyEnter);
    [reflexivity|reflexivity|vm_compute; discriminate
    |vm_compute; discriminate|reflexivity].
Defined.

Lemma edit_saves_first_match_witness :
  ∃ m' fs' l1 t l2,
    exampleStep env0 editForm ∅ (KeyPress keyEnter)
    = Some (m', fs', CmdNil) ∧
    tasks (store editForm) = l1 ++ t :: l2 ∧
    (editingTaskID editForm ∉ ID <$> l1) ∧
    ID t = editingTaskID editForm ∧
    tasks (store m')
    = l1 ++ mkTask (ID t) (TrimSpace (Value (textInput editForm))) (Status t)
                   (TrimSpace (Value (categoryInput editForm))) (CreatedAt t)
                   (clock env0 0%nat) :: l2 ∧
    model_tasks m' = Filter (store m') (filterOptions editForm) ∧
    viewMode m' = ModeList ∧ editingTaskID m' = "" ∧
    cursor m' = cursor editForm ∧
    filterStatus m' = filterStatus editForm ∧
    filterCategory m' = filterCategory editForm.
Proof.
  apply (edit_saves_first_match exampleMarshal exampleFormat exampleSetValue
           exampleInputUpdate env0 editForm ∅ keyEnter);
    [reflexivity|reflexivity|vm_compute; discriminate|].
  simpl. right. left.
Defined.

Lemma status_keys_set_status_witness :
  ∃ m' fs' l1 t1 l2,
    exampleStep env0 lastRow ∅ (KeyPress (runeKey "d"))
    = Some (m', fs', CmdNil) ∧
    tasks (store lastRow) = l1 ++ t1 :: l2 ∧ ("3" ∉ ID <$> l1) ∧
    ID t1 = "3" ∧
    tasks (store m')
    = l1 ++ mkTask (ID t1) (Description t1) StatusDone (Category t1)
                   (CreatedAt t1) (clock env0 0%nat) :: l2 ∧
    model_tasks m' = Filter (store m') (filterOptions lastRow) ∧
    cursor m' = cursor lastRow ∧ viewMode m' = ModeList ∧
    filterStatus m' = filterStatus lastRow ∧
    filterCategory m' = filterCategory lastRow ∧
    (NoDup (ID <$> tasks (store lastRow)) →
     t1 = mkTask "3" "Review patch" "pending" "work" 30 30).
Proof.
  apply (status_keys_set_status exampleMarshal exampleFormat exampleSetValue
           exampleInputUpdate env0 lastRow ∅ (runeKey "d")
           (mkTask "3" "Review patch" "pending" "work" 30 30) StatusDone);
    reflexivity.
Defined.

Lemma focus_follows_active_input_witness :
  ∃ m fs,
    exampleRun [(env0, KeyPress (runeKey "n"));
                (env0, KeyPress (specialKey KeyTab))]
      (initialModel threeTaskStore) ∅ = Some (m, fs) ∧
    ti_focus (textInput m) = bool_decide (activeInput m = 0) ∧
    ti_focus (categoryInput m) = bool_decide (activeInput m = 1).
Proof.
  apply (focus_follows_active_input exampleMarshal exampleFormat
           exampleSetValue exampleInputUpdate threeTaskStore ∅
           [(env0, KeyPress (runeKey "n"));
            (env0, KeyPress (specialKey KeyTab))]).
  - reflexivity.
  - intros ti [k|tag]; simpl; [destruct (key_Type k)|]; reflexivity.
Defined.
